(** * wika-data: normalisation and merge of parsed dictionaries and phrasebooks

    A shallow embedding of [wikadata/dictionaries/collect_dictionaries.py]
    and [wikadata/phrasebooks/collect_phrasebooks.py], and the properties
    of the normalise-and-merge pipeline proved about it.

    The Python code works on values loaded by [json.load] with
    [object_pairs_hook=OrderedDict]; exceptions are modelled by an error
    monad, the insertion-ordered dictionaries by association lists, and the
    output directory by a finite map from file names to the documents
    dumped into them.

    The development also covers the code around the collectors: the
    record building and export of the Wikivoyage, Pinoy Dictionary and GCIDE
    parsers that write the files the collectors read, the frequency-list
    tables of [freqlists/parser.py] and the retry loop of
    [utils/fetch_page.py].  Library functions ([BeautifulSoup], [str.lower],
    [str.strip], [int], [str]) are parameters of the definitions that call
    them. *)

From stdpp Require Import base strings list list_monad gmap pretty sorting.
From Stdlib Require Import ZArith.

Local Open Scope string_scope.
Local Open Scope list_scope.
Set Warnings "-register-all".

(** ** Loaded JSON values *)

(** What [json.load] returns: [None], [bool], [int], [float], [str], [list]
    and (through the hook) [OrderedDict].  A float is carried as its 64
    bits; the code never computes with numbers.  [JObj] holds the items of
    the [OrderedDict] in insertion order; a loaded object has distinct
    keys.  A [string] is a sequence of characters. *)
Inductive json : Type :=
  | JNull
  | JBool (b : bool)
  | JInt (n : Z)
  | JFloat (bits : Z)
  | JStr (s : string)
  | JArr (items : list json)
  | JObj (fields : list (string * json)).

(** ** Exceptions *)

Inductive exn : Type :=
  | KeyError (key : string)
  | TypeError
  | AttributeError
  | OSError
  | UnicodeEncodeError.

Inductive result (A : Type) : Type :=
  | Ok (a : A)
  | Err (e : exn).
Arguments Ok {A} a.
Arguments Err {A} e.

#[global] Instance result_ret : MRet result := fun A a => Ok a.
#[global] Instance result_bind : MBind result := fun A B f m =>
  match m with
  | Ok a => f a
  | Err e => Err e
  end.

(** A [for] loop whose body may raise: the first exception ends it. *)
Fixpoint foldlM {A B} (f : A -> B -> result A) (a : A) (l : list B) : result A :=
  match l with
  | [] => Ok a
  | x :: l' => a' ← f a x; foldlM f a' l'
  end.

(** ** Insertion-ordered dictionaries *)

Definition odict : Type := list (string * json).

(** [d[k] = v]: an existing key keeps its position, a new one goes last. *)
Fixpoint od_setitem (k : string) (v : json) (d : odict) : odict :=
  match d with
  | [] => [(k, v)]
  | (k', v') :: d' =>
      if String.eqb k' k then (k', v) :: d' else (k', v') :: od_setitem k v d'
  end.

(** [OrderedDict(pairs)] *)
Definition OrderedDict (pairs : list (string * json)) : odict :=
  foldl (fun d kv => od_setitem kv.1 kv.2 d) [] pairs.

Fixpoint od_get (k : string) (d : odict) : option json :=
  match d with
  | [] => None
  | (k', v) :: d' => if String.eqb k' k then Some v else od_get k d'
  end.

Definition keys (d : odict) : list string := fst <$> d.

(** ** Python operations on loaded values *)

(** [o[key]]: only a dictionary can be subscripted by a string. *)
Definition py_getitem (o : json) (key : string) : result json :=
  match o with
  | JObj d =>
      match od_get key d with
      | Some v => Ok v
      | None => Err (KeyError key)
      end
  | _ => Err TypeError
  end.

(** [o.get(key, default)]: the attribute [get] is looked up first, then the
    argument [default] is evaluated (it may raise), then the call is made.
    [o.get(key)] is [py_get o key (Ok JNull)]. *)
Definition py_get (o : json) (key : string) (default : result json) : result json :=
  match o with
  | JObj d =>
      dflt ← default;
      Ok (match od_get key d with Some v => v | None => dflt end)
  | _ => Err AttributeError
  end.

Definition chars (s : string) : list json :=
  map (fun c => JStr (String c EmptyString)) (String.list_ascii_of_string s).

(** [iter(o)]: a list gives its items, a dictionary its keys, a string its
    characters; nothing else is iterable. *)
Definition py_iter (o : json) : result (list json) :=
  match o with
  | JArr items => Ok items
  | JObj d => Ok (JStr <$> keys d)
  | JStr s => Ok (chars s)
  | _ => Err TypeError
  end.

(** [v in [None, "", []]] *)
Definition py_in_empties (v : json) : bool :=
  match v with
  | JNull => true
  | JStr "" => true
  | JArr [] => true
  | _ => false
  end.

(** ** Aggregate groups *)

(** A value of [merged_data]: [{"meta": ..., "entries": [...]}]. *)
Record group : Type := Group { g_meta : odict; g_entries : list json }.

(** [defaultdict(lambda: {"meta": OrderedDict(), "entries": []})] *)
Definition default_group : group := Group [] [].

Definition merged : Type := list (string * group).

Fixpoint md_get (k : string) (m : merged) : option group :=
  match m with
  | [] => None
  | (k', g) :: m' => if String.eqb k' k then Some g else md_get k m'
  end.

(** [merged_data[k]] followed by a mutation [f] of the group found; a
    missing key first gets the default group, appended last. *)
Fixpoint md_update (k : string) (f : group -> group) (m : merged) : merged :=
  match m with
  | [] => [(k, f default_group)]
  | (k', g) :: m' =>
      if String.eqb k' k then (k', f g) :: m' else (k', g) :: md_update k f m'
  end.

Definition set_meta (meta : odict) (g : group) : group :=
  Group meta (g_entries g).

Definition extend_entries (new : list json) (g : group) : group :=
  Group (g_meta g) (g_entries g ++ new).

(** The document [json.dump] is given for a group. *)
Definition group_json (g : group) : json :=
  JObj [("meta", JObj (g_meta g)); ("entries", JArr (g_entries g))].

(** ** Writing the groups *)

(** What a file of [OUTPUT_DIR] holds: the text [json.dump] wrote for a
    document, to its end, or the beginning of that text, left by a dump that
    raised.  [json.dump] with fixed options writes a text that is a function
    of the document, key order included. *)
Inductive content : Type :=
  | Complete (doc : json)
  | Incomplete (doc : json).

Section Writing.
(** What [(OUTPUT_DIR / filename).open("w", encoding="utf-8")] raises, if
    anything: an [OSError] when the name has a directory part that does not
    exist, when writing is not permitted, and so on. *)
Variable open_raises : string -> option exn.
(** What [json.dump(data, f, indent=2, ensure_ascii=False)] raises into the
    open file, if anything: a [UnicodeEncodeError] for a string that cannot
    be encoded, an [OSError] when the device is full. *)
Variable dump_raises : json -> option exn.

(** The loop of [main] over the items of the merged data: the directory
    afterwards, and whether the loop ended or raised.  Opening truncates the
    file, so a dump that raises leaves an incomplete text; an [open] that
    raises leaves the file as it was.  The groups written before stay
    written. *)
Fixpoint write_groups (files : gmap string content) (groups : merged)
  : gmap string content * result unit :=
  match groups with
  | [] => (files, Ok ())
  | (filename, data) :: groups' =>
      match open_raises filename with
      | Some e => (files, Err e)
      | None =>
          match dump_raises (group_json data) with
          | Some e => (<[filename := Incomplete (group_json data)]> files, Err e)
          | None => write_groups (<[filename := Complete (group_json data)]> files) groups'
          end
      end
  end.
End Writing.

(** ** collect_dictionaries.py *)

Module Dictionaries.

(** [OrderedDict((k, v) for k, v in data.items() if v not in [None, "", []])] *)
Definition filter_empty_fields (data : odict) : odict :=
  OrderedDict (List.filter (fun kv => negb (py_in_empties kv.2)) data).

Definition ensure_ordered_definition (definition meta : json) : result json :=
  description ← py_get definition "description" (Ok JNull);
  pos ← py_get definition "pos" (Ok JNull);
  origin ← py_get definition "origin" (Ok JNull);
  usage_note ← py_get definition "usage_note" (Ok JNull);
  synonyms ← py_get definition "synonyms" (Ok (JArr []));
  antonyms ← py_get definition "antonyms" (Ok (JArr []));
  inflections ← py_get definition "inflections" (Ok (JArr []));
  examples ← py_get definition "examples" (Ok (JArr []));
  source_title ← py_get definition "source_title" (py_getitem meta "source_title");
  source_link ← py_get definition "source_link" (py_get meta "source_link" (Ok JNull));
  let data := OrderedDict
    [ ("description", description);
      ("pos", pos);
      ("origin", origin);
      ("usage_note", usage_note);
      ("synonyms", synonyms);
      ("antonyms", antonyms);
      ("inflections", inflections);
      ("examples", examples);
      ("source_title", source_title);
      ("source_link", source_link) ] in
  Ok (JObj (filter_empty_fields data)).

Definition ensure_ordered_entry (entry meta : json) : result json :=
  raw ← py_get entry "definitions" (Ok (JArr []));
  ds ← py_iter raw;
  definitions ← mapM (fun d => ensure_ordered_definition d meta) ds;
  word ← py_get entry "word" (Ok JNull);
  let data := OrderedDict
    [ ("word", word);
      ("definitions", JArr definitions) ] in
  Ok (JObj (filter_empty_fields data)).

Section Collect.
(** [str(v)], as the f-string applies it to the two language codes. *)
Variable py_str : json -> string.
(** What opening an output file and dumping a document raise, if anything. *)
Variable open_raises : string -> option exn.
Variable dump_raises : json -> option exn.

Definition filename_of (lang definition_lang : json) : string :=
  "dictionary_" +:+ py_str lang +:+ "_" +:+ py_str definition_lang +:+ ".json".

(** The body of the loop over [PARSED_DIRS], for one loaded file. *)
Definition merge_file (merged_data : merged) (data : json) : result merged :=
  meta ← py_getitem data "meta";
  entries ← py_getitem data "entries";
  lang ← py_getitem meta "lang";
  definition_lang ← py_getitem meta "definition_lang";
  let filename := filename_of lang definition_lang in
  let merged_data :=
    md_update filename
      (set_meta (OrderedDict [("lang", lang); ("definition_lang", definition_lang)]))
      merged_data in
  items ← py_iter entries;
  new ← mapM (fun entry => ensure_ordered_entry entry meta) items;
  Ok (md_update filename (extend_entries new) merged_data).

(** [parsed] is the documents of the files [PARSED_DIRS] yields, in the
    order it yields them. *)
Definition collect_dictionaries (parsed : list json) : result merged :=
  foldlM merge_file [] parsed.

(** [files] is the content of [OUTPUT_DIR], an existing directory, by
    file name.  The result is the directory afterwards, and whether [main]
    returned or raised. *)
Definition main (files : gmap string content) (parsed : list json)
  : gmap string content * result unit :=
  match collect_dictionaries parsed with
  | Ok merged_dictionaries =>
      write_groups open_raises dump_raises files merged_dictionaries
  | Err e => (files, Err e)
  end.
End Collect.

End Dictionaries.

(** ** collect_phrasebooks.py *)

Module Phrasebooks.

(** [OrderedDict((k, v) for k, v in data.items() if v not in [None, "", []])] *)
Definition filter_empty_fields (data : odict) : odict :=
  OrderedDict (List.filter (fun kv => negb (py_in_empties kv.2)) data).

Definition ensure_ordered_translation (translation meta : json) : result json :=
  content ← py_get translation "content" (Ok JNull);
  examples ← py_get translation "examples" (Ok JNull);
  source_title ← py_get translation "source_title" (py_get meta "source_title" (Ok JNull));
  source_link ← py_get translation "source_link" (py_get meta "source_link" (Ok JNull));
  let data := OrderedDict
    [ ("content", content);
      ("examples", examples);
      ("source_title", source_title);
      ("source_link", source_link) ] in
  Ok (JObj (filter_empty_fields data)).

Definition ensure_ordered_entry (entry meta : json) : result json :=
  raw ← py_get entry "translations" (Ok JNull);
  ts ← py_iter raw;
  translations ← mapM (fun t => ensure_ordered_translation t meta) ts;
  phrase ← py_get entry "phrase" (Ok JNull);
  categories ← py_get entry "categories" (Ok JNull);
  usage_note ← py_get entry "usage_note" (Ok JNull);
  let data := OrderedDict
    [ ("phrase", phrase);
      ("categories", categories);
      ("usage_note", usage_note);
      ("translations", JArr translations) ] in
  Ok (JObj (OrderedDict (filter_empty_fields data))).

Section Collect.
(** [str(v)], as the f-string applies it to the two language codes. *)
Variable py_str : json -> string.
(** What opening an output file and dumping a document raise, if anything. *)
Variable open_raises : string -> option exn.
Variable dump_raises : json -> option exn.

Definition filename_of (lang translation_lang : json) : string :=
  "phrasebook_" +:+ py_str lang +:+ "_" +:+ py_str translation_lang +:+ ".json".

(** The body of the loop over [PARSED_DIRS], for one loaded file. *)
Definition merge_file (merged_data : merged) (data : json) : result merged :=
  meta ← py_getitem data "meta";
  entries ← py_getitem data "entries";
  lang ← py_getitem meta "lang";
  translation_lang ← py_getitem meta "translation_lang";
  let filename := filename_of lang translation_lang in
  let merged_data :=
    md_update filename
      (set_meta (OrderedDict [("lang", lang); ("translation_lang", translation_lang)]))
      merged_data in
  items ← py_iter entries;
  new ← mapM (fun entry => ensure_ordered_entry entry meta) items;
  Ok (md_update filename (extend_entries new) merged_data).

Definition collect_phrasebooks (parsed : list json) : result merged :=
  foldlM merge_file [] parsed.

Definition main (files : gmap string content) (parsed : list json)
  : gmap string content * result unit :=
  match collect_phrasebooks parsed with
  | Ok merged_phrasebooks =>
      write_groups open_raises dump_raises files merged_phrasebooks
  | Err e => (files, Err e)
  end.
End Collect.

End Phrasebooks.

(** ** The two collectors as instances of one loop *)

(** The two scripts differ in the file-name prefix, the name of the second
    language key and the entry normaliser; [Aggregator] is their common
    shape, used to prove the grouping properties once. *)
Module Aggregator.
Section Generic.
Variable prefix second_key : string.
Variable normalise : json -> json -> result json.
Variable py_str : json -> string.

Definition filename_of (lang second : json) : string :=
  prefix +:+ py_str lang +:+ "_" +:+ py_str second +:+ ".json".

(** What one file contributes when its loop body succeeds: the group key,
    the group meta and the normalised entries. *)
Definition contribution (data : json) : result (string * odict * list json) :=
  meta ← py_getitem data "meta";
  entries ← py_getitem data "entries";
  lang ← py_getitem meta "lang";
  second ← py_getitem meta second_key;
  items ← py_iter entries;
  new ← mapM (fun entry => normalise entry meta) items;
  Ok (filename_of lang second, OrderedDict [("lang", lang); (second_key, second)], new).

Definition merge_file (merged_data : merged) (data : json) : result merged :=
  '(filename, meta, new) ← contribution data;
  Ok (md_update filename (extend_entries new)
        (md_update filename (set_meta meta) merged_data)).
End Generic.
End Aggregator.

(** ** Sample inputs *)

Module Samples.

(** [str(v)] on the values the samples format: a string is its own text. *)
Definition text_of (v : json) : string :=
  match v with JStr s => s | _ => "" end.

Definition meta_S1 : json :=
  JObj [("lang", JStr "tgl"); ("definition_lang", JStr "eng"); ("source_title", JStr "S1")].

Definition meta_bare : json :=
  JObj [("lang", JStr "tgl"); ("definition_lang", JStr "eng")].

Definition def_dog : json := JObj [("description", JStr "dog")].
Definition def_cat : json := JObj [("description", JStr "cat"); ("source_title", JStr "S2")].

Definition entry_aso : json :=
  JObj [("word", JStr "aso"); ("definitions", JArr [def_dog])].
Definition entry_pusa : json :=
  JObj [("word", JStr "pusa"); ("definitions", JArr [def_cat])].

(** An output directory in which every file can be opened and every
    document dumped. *)
Definition opens (filename : string) : option exn := None.
Definition dumps (doc : json) : option exn := None.

(** The same directory without sub-directories: a name with a [/] cannot
    be opened. *)
Fixpoint has_slash (s : string) : bool :=
  match s with
  | EmptyString => false
  | String c s' => Ascii.eqb c (Ascii.ascii_of_nat 47) || has_slash s'
  end.
Definition opens_flat (filename : string) : option exn :=
  if has_slash filename then Some OSError else None.

(** The two batches of the scenario of the specification. *)
Definition batch_A : json := JObj [("meta", meta_S1); ("entries", JArr [entry_aso])].
Definition batch_B : json := JObj [("meta", meta_bare); ("entries", JArr [entry_pusa])].

Definition meta_S3 : json :=
  JObj [("lang", JStr "tgl"); ("definition_lang", JStr "eng"); ("source_title", JStr "S3")].

(** A second batch for the key of [batch_A], repeating the word of
    [batch_A]. *)
Definition batch_C : json :=
  JObj [("meta", meta_S3); ("entries", JArr [entry_aso; entry_pusa])].

(** An entry whose [definitions] holds a string where a mapping is
    expected. *)
Definition entry_broken : json :=
  JObj [("word", JStr "ibon"); ("definitions", JArr [JStr "bird"])].

Definition batch_broken : json :=
  JObj [("meta", meta_S1); ("entries", JArr [entry_aso; entry_broken])].

(** A batch without entries. *)
Definition batch_empty : json :=
  JObj [("meta", meta_bare); ("entries", JArr [])].

Definition aso_S1 : json :=
  JObj [("word", JStr "aso");
        ("definitions",
         JArr [JObj [("description", JStr "dog"); ("source_title", JStr "S1")]])].
Definition aso_S3 : json :=
  JObj [("word", JStr "aso");
        ("definitions",
         JArr [JObj [("description", JStr "dog"); ("source_title", JStr "S3")]])].
Definition pusa_S2 : json :=
  JObj [("word", JStr "pusa");
        ("definitions",
         JArr [JObj [("description", JStr "cat"); ("source_title", JStr "S2")]])].

End Samples.

(** ** Truth value of a loaded value *)

(** [bool(v)]: [None], [False], zero, the empty string and the empty list
    or mapping are false.  The two float zeros are the bit patterns [0] and
    [2^63]. *)
Definition py_truthy (v : json) : bool :=
  match v with
  | JNull => false
  | JBool b => b
  | JInt n => negb (n =? 0)%Z
  | JFloat bits => negb ((bits =? 0)%Z || (bits =? 2 ^ 63)%Z)
  | JStr s => negb (String.eqb s "")
  | JArr items => match items with [] => false | _ => true end
  | JObj d => match d with [] => false | _ => true end
  end.

(** ** phrasebooks/wikivoyage/parser.py *)

Module Wikivoyage.
Section Parser.
(** [BeautifulSoup(v, "html.parser").get_text(strip=True)]; it may raise. *)
Variable html_text : json -> result string.
(** [str.lower] and [str.strip]. *)
Variable lower : string -> string.
Variable strip : string -> string.

(** [v.lower()]: only a string has the method. *)
Definition py_lower (v : json) : result string :=
  match v with
  | JStr s => Ok (lower s)
  | _ => Err AttributeError
  end.

(** The body of the [try] of [process_entry], for an entry that is a
    mapping. *)
Definition process_entry_try (entry : odict) : result (option json) :=
  phrase ← html_text (match od_get "phrase" entry with Some v => v | None => JStr "" end);
  if String.eqb phrase "" then Ok None else
  full_translation ←
    html_text (match od_get "translation" entry with Some v => v | None => JStr "" end);
  category ← py_lower (match od_get "category" entry with Some v => v | None => JStr "" end);
  let source := match od_get "source" entry with Some v => v | None => JStr "" end in
  let translations :=
    if String.eqb full_translation "" then []
    else [JObj [("content", JStr (strip full_translation))]] in
  Ok (Some (JObj (List.filter (fun kv => py_truthy kv.2)
    [ ("phrase", JStr phrase);
      ("categories", JArr (if String.eqb category "" then [] else [JStr category]));
      ("source_link", source);
      ("translations", JArr translations) ]))).

(** [except Exception] turns what the body raises into [None]; the handler
    itself calls [entry.get], which raises again when the entry is not a
    mapping. *)
Definition process_entry (entry : json) : result (option json) :=
  match entry with
  | JObj fields =>
      match process_entry_try fields with
      | Ok r => Ok r
      | Err _ => Ok None
      end
  | _ => Err AttributeError
  end.

(** The loop of [parse]: the processed entries that are true are appended
    to [parsed_data]. *)
Fixpoint parse_loop (items : list json) (parsed_data : list json) : result (list json) :=
  match items with
  | [] => Ok parsed_data
  | entry :: items' =>
      processed_entry ← process_entry entry;
      parse_loop items'
        (match processed_entry with
         | Some r => if py_truthy r then parsed_data ++ [r] else parsed_data
         | None => parsed_data
         end)
  end.

(** [parse(raw_data, parsed_data)]: the list [parsed_data] afterwards, and
    the value returned. *)
Definition parse (raw_data : json) (parsed_data : list json) : result (list json * bool) :=
  if py_truthy raw_data then
    items ← py_iter raw_data;
    parsed ← parse_loop items parsed_data;
    Ok (parsed, true)
  else Ok (parsed_data, false).

(** The document [export_parsed_data] dumps; [None] when it returns
    [False] without writing.  The file name is formatted first, with four
    [meta.get] calls. *)
Definition export_document (parsed_data : list json) (meta : json) : result (option json) :=
  match parsed_data with
  | [] => Ok None
  | _ :: _ =>
      _ ← py_get meta "lang" (Ok (JStr "unknown"));
      _ ← py_get meta "translation_lang" (Ok (JStr "unknown"));
      _ ← py_get meta "total_entries" (Ok (JStr "unknown"));
      _ ← py_get meta "date" (Ok (JStr "unknown"));
      lang ← py_get meta "lang" (Ok (JStr ""));
      translation_lang ← py_get meta "translation_lang" (Ok (JStr ""));
      source_title ← py_get meta "source_title" (Ok (JStr ""));
      source_link ← py_get meta "source_link" (Ok (JStr ""));
      Ok (Some (JObj
        [ ("meta", JObj [ ("lang", lang);
                          ("translation_lang", translation_lang);
                          ("source_title", source_title);
                          ("source_link", source_link) ]);
          ("entries", JArr parsed_data) ]))
  end.
End Parser.
End Wikivoyage.

(** ** dictionaries/pinoy_dictionary/parser.py *)

Module PinoyDictionary.

(** The document [export_parsed_data] dumps; [None] when it returns
    [False] without writing.  The file name is formatted first, with four
    [meta.get] calls. *)
Definition export_document (parsed_data : list json) (meta : json) : result (option json) :=
  match parsed_data with
  | [] => Ok None
  | _ :: _ =>
      _ ← py_get meta "lang" (Ok (JStr "unknown"));
      _ ← py_get meta "definition_lang" (Ok (JStr "unknown"));
      _ ← py_get meta "total_entries" (Ok (JStr "unknown"));
      _ ← py_get meta "date" (Ok (JStr "unknown"));
      lang ← py_get meta "lang" (Ok (JStr ""));
      definition_lang ← py_get meta "definition_lang" (Ok (JStr ""));
      source_title ← py_get meta "source_title" (Ok (JStr ""));
      source_link ← py_get meta "source_link" (Ok (JStr ""));
      Ok (Some (JObj
        [ ("meta", JObj [ ("lang", lang);
                          ("definition_lang", definition_lang);
                          ("source_title", source_title);
                          ("source_link", source_link) ]);
          ("entries", JArr parsed_data) ]))
  end.

End PinoyDictionary.

(** ** dictionaries/gcide/parser.py *)

Module Gcide.

(** What [process_entry] returns for a paragraph: the mapping
    [{"word": word, "definitions": definitions}], where [word] is [None] or
    the text of the headword and [definitions] is a list of mappings. *)
Record entry : Type := Entry { word : option string; definitions : list json }.

(** [bool(new_entry.get("word"))] *)
Definition has_word (e : entry) : bool :=
  match word e with
  | Some w => negb (String.eqb w "")
  | None => false
  end.

(** [data[-1]["definitions"].extend(more)] on a non-empty list. *)
Fixpoint extend_last (more : list json) (data : list entry) : list entry :=
  match data with
  | [] => []
  | [e] => [Entry (word e) (definitions e ++ more)]
  | e :: data' => e :: extend_last more data'
  end.

(** The body of the loop of [process_letter]; [processed] is what
    [process_entry] returned for the paragraph, [None] when it failed. *)
Definition absorb (data : list entry) (processed : option entry) : list entry :=
  match processed with
  | None => data
  | Some new_entry =>
      if has_word new_entry then data ++ [new_entry]
      else match data with
           | [] => data
           | _ :: _ => extend_last (definitions new_entry) data
           end
  end.

(** The loop of [process_letter] over the paragraphs of one file. *)
Definition process_letter (processed : list (option entry)) : list entry :=
  foldl absorb [] processed.

Definition entry_json (e : entry) : json :=
  JObj [ ("word", match word e with Some w => JStr w | None => JNull end);
         ("definitions", JArr (definitions e)) ].

Section Exporter.
(** [str.lower] *)
Variable lower : string -> string.

(** The sort key [entry["word"].lower()]: [None] has no such method. *)
Definition sort_key (e : entry) : result string :=
  match word e with
  | Some w => Ok (lower w)
  | None => Err AttributeError
  end.

(** Where a stable ascending sort puts a new first element. *)
Fixpoint insert_keyed (x : string * entry) (l : list (string * entry))
  : list (string * entry) :=
  match l with
  | [] => [x]
  | y :: l' => if String.leb x.1 y.1 then x :: y :: l' else y :: insert_keyed x l'
  end.

(** [list.sort(key=...)]: the keys are computed first, then the list is
    sorted by them, equal keys keeping their order. *)
Definition sort_by_word (parsed_data : list entry) : result (list entry) :=
  keyed ← mapM (fun e => k ← sort_key e; Ok (k, e)) parsed_data;
  Ok (foldr insert_keyed [] keyed).*2.

(** The document [export_parsed_data] dumps; [None] when it returns
    [False] without writing. *)
Definition export_document (parsed_data : list entry) : result (option json) :=
  match parsed_data with
  | [] => Ok None
  | _ :: _ =>
      sorted ← sort_by_word parsed_data;
      Ok (Some (JObj
        [ ("meta", JObj [ ("lang", JStr "eng");
                          ("definition_lang", JStr "eng");
                          ("total_entries", JInt (Z.of_nat (length sorted)));
                          ("source_title", JStr "GCIDE");
                          ("source_link", JStr "https://ibiblio.org/webster/") ]);
          ("entries", JArr (entry_json <$> sorted)) ]))
  end.
End Exporter.

(** The name [export_parsed_data] writes to, within the output directory
    whose names are [dir]: [dictionary_eng_eng_<n>.json], or the first of
    [dictionary_eng_eng_<n>_2.json], [..._3.json], ... that does not exist.
    [fuel] bounds the number of turns of the [while] loop. *)
Definition numbered (base ext : string) (counter : nat) : string :=
  base +:+ "_" +:+ pretty counter +:+ ext.

Fixpoint free_name (dir : gset string) (base ext : string)
    (fuel counter : nat) (output_path : string) : option string :=
  if bool_decide (output_path ∈ dir) then
    match fuel with
    | 0 => None
    | S fuel' => free_name dir base ext fuel' (S counter) (numbered base ext counter)
    end
  else Some output_path.

Definition output_name (dir : gset string) (total : nat) (fuel : nat) : option string :=
  let base := "dictionary_eng_eng_" +:+ pretty total in
  free_name dir base ".json" fuel 2 (base +:+ ".json").

End Gcide.

(** ** utils/fetch_page.py *)

Module Fetch.

(** What one [requests.get] followed by [raise_for_status] does: it gives
    the content of the response, or raises a [RequestException]. *)
Inductive outcome : Type :=
  | Content (content : string)
  | RequestException.

Inductive fetch_exn : Type := ValueError.

(** The [while attempt <= retries] loop.  [network i] is the outcome of
    the request number [i] of the call; [remaining] counts the turns left,
    [slept] collects the arguments of [sleep], in seconds. *)
Fixpoint fetch_loop (network : nat -> outcome) (remaining attempt : nat) (slept : list Z)
  : option string * list Z :=
  match remaining with
  | 0 => (None, slept)
  | S remaining' =>
      match network attempt with
      | Content content => (Some content, slept)
      | RequestException =>
          fetch_loop network remaining' (S attempt)
            (slept ++ [2 * (Z.of_nat (S attempt) + 1)]%Z)
      end
  end.

(** [fetch_page(url, retries)]: the value returned ([None] after the last
    failure) and the sleeps made, or [ValueError]. *)
Definition fetch_page (network : nat -> outcome) (retries : Z)
  : fetch_exn + (option string * list Z) :=
  if (retries <? 0)%Z then inl ValueError
  else inr (fetch_loop network (Z.to_nat (retries + 1)) 0 []).

End Fetch.

(** ** freqlists/parser.py *)

Module Freqlists.

(** [s.split("_")]: the pieces between the underscores, at least one.
    The underscore is the character 95. *)
Fixpoint split_underscore (s : string) : list string :=
  match s with
  | EmptyString => [EmptyString]
  | String c s' =>
      if Ascii.eqb c (Ascii.ascii_of_nat 95) then EmptyString :: split_underscore s'
      else match split_underscore s' with
           | piece :: pieces => String c piece :: pieces
           | [] => [String c EmptyString]
           end
  end.

(** [file_path.stem.split("_")[1]]; [None] stands for the [IndexError]
    that makes [generate_freqlists] skip the file. *)
Definition lang_of_stem (stem : string) : option string :=
  split_underscore stem !! 1.

(** A frequency list [freqlists[lang]]: a dictionary from words to counts,
    in insertion order. *)
Definition table : Type := list (string * Z).

Fixpoint tb_get (word : string) (t : table) : option Z :=
  match t with
  | [] => None
  | (w, n) :: t' => if String.eqb w word then Some n else tb_get word t'
  end.

(** [t[word] = n] *)
Fixpoint tb_set (word : string) (n : Z) (t : table) : table :=
  match t with
  | [] => [(word, n)]
  | (w, m) :: t' => if String.eqb w word then (w, n) :: t' else (w, m) :: tb_set word n t'
  end.

Section Parser.
(** [str.strip], [str.lower] and [int], which is [None] where it raises
    [ValueError]. *)
Variable strip : string -> string.
Variable lower : string -> string.
Variable py_int : string -> option Z.

(** The body of the loop over the lines of a word list. *)
Definition count_line (t : table) (line : string) : table :=
  let word := lower (strip line) in
  if String.eqb word "" then t
  else tb_set word (match tb_get word t with Some n => n | None => 0 end + 1)%Z t.

Definition count_lines (t : table) (lines : list string) : table :=
  foldl count_line t lines.

(** The body of the loop of [apply_existing_freqlist] over the rows of the
    corpus file. *)
Definition apply_row (t : table) (row : list string) : table :=
  if Nat.ltb (length row) 2 then t
  else
    let word := lower (match row !! 1 with Some w => w | None => "" end) in
    match py_int (match last row with Some f => f | None => "" end) with
    | None => t
    | Some freq =>
        match tb_get word t with
        | Some n => tb_set word (n + freq)%Z t
        | None => t
        end
    end.

Definition apply_rows (t : table) (rows : list (list string)) : table :=
  foldl apply_row t rows.
End Parser.

(** Where a stable descending sort by count puts a new first item. *)
Fixpoint insert_desc (x : string * Z) (l : table) : table :=
  match l with
  | [] => [x]
  | y :: l' => if (y.2 <=? x.2)%Z then x :: y :: l' else y :: insert_desc x l'
  end.

(** [sorted(words.items(), key=lambda item: item[1], reverse=True)]: the
    rows [export_freqlists] writes for one language. *)
Definition export_rows (t : table) : table := foldr insert_desc [] t.

End Freqlists.

(** ** Sample inputs of the parsers *)

Module ParserSamples.

(** [get_text] on markup without tags or surrounding blanks: the text
    itself. *)
Definition plain_text (v : json) : result string :=
  match v with
  | JStr s => Ok s
  | _ => Err TypeError
  end.

(** [str.lower] and [str.strip] on lower-case text without surrounding
    blanks. *)
Definition unchanged (s : string) : string := s.

Definition scraped_thanks : odict :=
  [ ("phrase", JStr "salamat"); ("translation", JStr "thank you");
    ("category", JStr "basics"); ("source", JStr "https://example.org/tl") ].

Definition scraped_untranslated : odict :=
  [ ("phrase", JStr "salamat"); ("translation", JStr "");
    ("category", JStr "basics"); ("source", JStr "https://example.org/tl") ].

Definition parsed_thanks : json :=
  JObj [ ("phrase", JStr "salamat"); ("categories", JArr [JStr "basics"]);
         ("source_link", JStr "https://example.org/tl");
         ("translations", JArr [JObj [("content", JStr "thank you")]]) ].

Definition parsed_untranslated : json :=
  JObj [ ("phrase", JStr "salamat"); ("categories", JArr [JStr "basics"]);
         ("source_link", JStr "https://example.org/tl") ].

Definition scraped_meta : odict :=
  [ ("lang", JStr "tgl"); ("translation_lang", JStr "eng");
    ("source_title", JStr "Tagalog Wikivoyage Phrasebook") ].

(** [str.lower] on ASCII text. *)
Definition lower_char (c : Ascii.ascii) : Ascii.ascii :=
  let n := Ascii.nat_of_ascii c in
  if Nat.leb 65 n && Nat.leb n 90 then Ascii.ascii_of_nat (n + 32) else c.

Fixpoint lower_ascii (s : string) : string :=
  match s with
  | EmptyString => EmptyString
  | String c s' => String (lower_char c) (lower_ascii s')
  end.

(** [int] on a string of decimal digits; [None] on anything else. *)
Fixpoint digits_value (acc : Z) (s : string) : option Z :=
  match s with
  | EmptyString => Some acc
  | String c s' =>
      let n := Ascii.nat_of_ascii c in
      if Nat.leb 48 n && Nat.leb n 57
      then digits_value (10 * acc + Z.of_nat (n - 48))%Z s'
      else None
  end.

Definition digits_int (s : string) : option Z :=
  match s with
  | EmptyString => None
  | _ => digits_value 0%Z s
  end.

End ParserSamples.

(** ** Vocabulary of the statements *)

Definition nonempty (v : json) : Prop :=
  v <> JNull /\ v <> JStr "" /\ v <> JArr [].

(** The generator of [filter_empty_fields]: the items kept. *)
Definition kept (data : odict) : list (string * json) :=
  List.filter (fun kv => negb (py_in_empties kv.2)) data.
Arguments kept : simpl never.

(** [fields.get(k, dflt)] on a dictionary. *)
Definition get_or (fields : odict) (k : string) (dflt : json) : json :=
  match od_get k fields with Some v => v | None => dflt end.

(** The record [ensure_ordered_definition] builds before pruning. *)
Definition definition_data (fields : odict) (title link : json) : odict :=
  [ ("description", get_or fields "description" JNull);
    ("pos", get_or fields "pos" JNull);
    ("origin", get_or fields "origin" JNull);
    ("usage_note", get_or fields "usage_note" JNull);
    ("synonyms", get_or fields "synonyms" (JArr []));
    ("antonyms", get_or fields "antonyms" (JArr []));
    ("inflections", get_or fields "inflections" (JArr []));
    ("examples", get_or fields "examples" (JArr []));
    ("source_title", get_or fields "source_title" title);
    ("source_link", get_or fields "source_link" link) ].

(** The record [ensure_ordered_translation] builds before pruning. *)
Definition translation_data (fields : odict) (title link : json) : odict :=
  [ ("content", get_or fields "content" JNull);
    ("examples", get_or fields "examples" JNull);
    ("source_title", get_or fields "source_title" title);
    ("source_link", get_or fields "source_link" link) ].

(** The record a dictionary entry is pruned from. *)
Definition dictionary_entry_data (fields : odict) (definitions : list json) : odict :=
  [ ("word", get_or fields "word" JNull); ("definitions", JArr definitions) ].

(** The record a phrasebook entry is pruned from. *)
Definition phrasebook_entry_data (fields : odict) (translations : list json) : odict :=
  [ ("phrase", get_or fields "phrase" JNull);
    ("categories", get_or fields "categories" JNull);
    ("usage_note", get_or fields "usage_note" JNull);
    ("translations", JArr translations) ].

Inductive record_kind : Type :=
  | DictionaryEntry
  | DictionaryDefinition
  | PhrasebookEntry
  | PhrasebookTranslation.

Definition normalise (kind : record_kind) : json -> json -> result json :=
  match kind with
  | DictionaryEntry => Dictionaries.ensure_ordered_entry
  | DictionaryDefinition => Dictionaries.ensure_ordered_definition
  | PhrasebookEntry => Phrasebooks.ensure_ordered_entry
  | PhrasebookTranslation => Phrasebooks.ensure_ordered_translation
  end.

(** The fixed field order of each kind of record. *)
Definition canonical_order (kind : record_kind) : list string :=
  match kind with
  | DictionaryEntry => ["word"; "definitions"]
  | DictionaryDefinition =>
      ["description"; "pos"; "origin"; "usage_note"; "synonyms"; "antonyms";
       "inflections"; "examples"; "source_title"; "source_link"]
  | PhrasebookEntry => ["phrase"; "categories"; "usage_note"; "translations"]
  | PhrasebookTranslation => ["content"; "examples"; "source_title"; "source_link"]
  end.

(** A record none of whose keys maps to [None], [""] or [[]]. *)
Definition pruned (r : json) : Prop :=
  exists fields, r = JObj fields /\
    forall k v, (k, v) ∈ fields -> v <> JNull /\ v <> JStr "" /\ v <> JArr [].


Inductive domain : Type := Dictionary | Phrasebook.

Definition prefix_of (dom : domain) : string :=
  match dom with Dictionary => "dictionary_" | Phrasebook => "phrasebook_" end.

Definition second_key_of (dom : domain) : string :=
  match dom with Dictionary => "definition_lang" | Phrasebook => "translation_lang" end.

Definition normalise_entry (dom : domain) : json -> json -> result json :=
  match dom with
  | Dictionary => Dictionaries.ensure_ordered_entry
  | Phrasebook => Phrasebooks.ensure_ordered_entry
  end.

Definition collect (dom : domain) (py_str : json -> string) : list json -> result merged :=
  match dom with
  | Dictionary => Dictionaries.collect_dictionaries py_str
  | Phrasebook => Phrasebooks.collect_phrasebooks py_str
  end.

Definition main (dom : domain) (py_str : json -> string)
    (open_raises : string -> option exn) (dump_raises : json -> option exn)
  : gmap string content -> list json -> gmap string content * result unit :=
  match dom with
  | Dictionary => Dictionaries.main py_str open_raises dump_raises
  | Phrasebook => Phrasebooks.main py_str open_raises dump_raises
  end.

(** A group can be written when its file opens and its document dumps. *)
Definition writable (open_raises : string -> option exn)
    (dump_raises : json -> option exn) (kg : string * group) : Prop :=
  open_raises kg.1 = None /\ dump_raises (group_json kg.2) = None.

(** The group key (the output file name) a loaded file is merged under. *)
Definition group_key (dom : domain) (py_str : json -> string) (data : json) : result string :=
  meta ← py_getitem data "meta";
  lang ← py_getitem meta "lang";
  second ← py_getitem meta (second_key_of dom);
  Ok (prefix_of dom +:+ py_str lang +:+ "_" +:+ py_str second +:+ ".json").

(** The entries of a loaded file, each normalised against the file's meta,
    one result per entry and in the order of the file. *)
Definition normalised_entries (dom : domain) (data : json) : result (list json) :=
  meta ← py_getitem data "meta";
  entries ← py_getitem data "entries";
  items ← py_iter entries;
  mapM (fun entry => normalise_entry dom entry meta) items.

Definition group_or_default (o : option group) : group :=
  match o with Some g => g | None => default_group end.

(** What pruning leaves of a resolved value. *)
Definition surviving (v : json) : option json :=
  if py_in_empties v then None else Some v.

(** The value a sub-record field resolves to when it falls back on the
    batch meta: the sub-record's own value when it has the key, else the
    meta's, else [None]. *)
Definition inherited (fields mfields : odict) (k : string) : json :=
  get_or fields k (get_or mfields k JNull).

(** The normalised entries a loaded file puts under the group key [k]:
    those of the file when it is merged under [k], none otherwise. *)
Definition entries_under (dom : domain) (py_str : json -> string) (k : string)
    (data : json) : list json :=
  match group_key dom py_str data, normalised_entries dom data with
  | Ok k', Ok new => if String.eqb k' k then new else []
  | _, _ => []
  end.

(** The meta a loaded file gives its group: the two language codes. *)
Definition group_meta_of (dom : domain) (data : json) : result odict :=
  meta ← py_getitem data "meta";
  lang ← py_getitem meta "lang";
  second ← py_getitem meta (second_key_of dom);
  Ok [("lang", lang); (second_key_of dom, second)].

(** The two kinds of nested sub-record. *)
Definition sub_record (kind : record_kind) : Prop :=
  kind = DictionaryDefinition \/ kind = PhrasebookTranslation.

(** The two fields that fall back on the batch meta. *)
Definition source_field (k : string) : Prop :=
  k = "source_title" \/ k = "source_link".

(** The entries the map holds under [k]; none when [k] is not a key. *)
Definition entries_of (k : string) (m : merged) : list json :=
  g_entries (group_or_default (md_get k m)).

(** What merging one file does to the map, given the file's key, its
    group meta and its normalised entries. *)
Definition merge_step (k : string) (meta : odict) (new : list json) (m : merged) : merged :=
  md_update k (extend_entries new) (md_update k (set_meta meta) m).

(** The entry the Wikivoyage [parse] appends for a scraped entry, if any. *)
Definition appended_entry (html_text : json -> result string) (lower strip : string -> string)
    (entry : json) : list json :=
  match Wikivoyage.process_entry html_text lower strip entry with
  | Ok (Some r) => [r]
  | _ => []
  end.

(** The entries [process_entry] returned, failures left out. *)
Definition processed_entries (processed : list (option Gcide.entry)) : list Gcide.entry :=
  omap id processed.

(** All definitions of a list of entries, in order. *)
Definition all_definitions (data : list Gcide.entry) : list json :=
  concat (Gcide.definitions <$> data).

(** The entries from the first one that has a word on. *)
Fixpoint skip_orphans (l : list Gcide.entry) : list Gcide.entry :=
  match l with
  | [] => []
  | e :: l' => if Gcide.has_word e then l else skip_orphans l'
  end.

(** The sort key of an entry that has a word. *)
Definition word_key (lower : string -> string) (e : Gcide.entry) : string :=
  match Gcide.word e with Some w => lower w | None => lower "" end.

(** The sleeps after [k] failed attempts: [4], [6], ... seconds. *)
Definition sleeps (k : nat) : list Z :=
  (fun a => 2 * (Z.of_nat a + 2))%Z <$> seq 0 k.

Definition total_seconds (slept : list Z) : Z := foldr Z.add 0%Z slept.

Fixpoint has_underscore (s : string) : bool :=
  match s with
  | EmptyString => false
  | String c s' => Ascii.eqb c (Ascii.ascii_of_nat 95) || has_underscore s'
  end.

(** The part of a string before its first underscore. *)
Fixpoint before_underscore (s : string) : string :=
  match s with
  | EmptyString => EmptyString
  | String c s' =>
      if Ascii.eqb c (Ascii.ascii_of_nat 95) then EmptyString
      else String c (before_underscore s')
  end.

(** The number of lines whose word is [w]. *)
Definition occurrences (strip lower : string -> string) (w : string)
    (lines : list string) : nat :=
  length (List.filter (fun line => String.eqb (lower (strip line)) w) lines).

(** The corpus frequency the rows give the word [w]: the sum of the last
    fields that are numbers, over the rows of at least two fields whose
    second field is [w] in lower case. *)
Definition corpus_frequency (lower : string -> string) (py_int : string -> option Z)
    (w : string) (rows : list (list string)) : Z :=
  foldr Z.add 0%Z
    ((fun row =>
        if Nat.ltb (length row) 2 then 0%Z
        else if String.eqb (lower (match row !! 1 with Some x => x | None => "" end)) w
        then match py_int (match last row with Some f => f | None => "" end) with
             | Some freq => freq
             | None => 0%Z
             end
        else 0%Z) <$> rows).

(** * Properties *)

(** ** The error monad *)

Lemma bind_Ok {A B} (m : result A) (f : A -> result B) (b : B) :
  m ≫= f = Ok b -> exists a, m = Ok a /\ f a = Ok b.
Proof. destruct m as [a|e]; simpl; [eauto | discriminate]. Qed.

(** Split a hypothesis [x ← m; k = Ok b] into [m = Ok x] and [k = Ok b]. *)
Ltac bind_inv H :=
  let x := fresh "x" in
  let Hx := fresh "H" x in
  apply bind_Ok in H; destruct H as (x & Hx & H).

Lemma mapM_Ok {A B} (f : A -> result B) (l : list A) (k : list B) :
  mapM f l = Ok k <-> Forall2 (fun x y => f x = Ok y) l k.
Proof.
  split.
  - revert k. induction l as [|x l IH]; simpl; intros k H.
    + injection H as <-. constructor.
    + bind_inv H. bind_inv H. injection H as <-. constructor; auto.
  - induction 1 as [|x y l k Hxy _ IH]; simpl; [done|].
    by rewrite Hxy; simpl; rewrite IH.
Qed.

(** A list comprehension raises as soon as one element does. *)
Lemma mapM_Err {A B} (f : A -> result B) (l : list A) (x : A) (e : exn) :
  x ∈ l -> f x = Err e -> exists e', mapM f l = Err e'.
Proof.
  intros Hin Hx. induction l as [|y l IH]; [by apply elem_of_nil in Hin|].
  apply elem_of_cons in Hin as [->|Hin]; simpl.
  - rewrite Hx. eauto.
  - destruct (f y) as [b|e1]; simpl; [|eauto].
    destruct (IH Hin) as [e' ->]. eauto.
Qed.

Lemma mapM_length {A B} (f : A -> result B) (l : list A) (k : list B) :
  mapM f l = Ok k -> length k = length l.
Proof. intros H%mapM_Ok. symmetry. by eapply Forall2_length. Qed.

Lemma foldlM_app {A B} (f : A -> B -> result A) (a : A) (l1 l2 : list B) :
  foldlM f a (l1 ++ l2) = (a' ← foldlM f a l1; foldlM f a' l2).
Proof.
  revert a. induction l1 as [|x l1 IH]; intros a; simpl; [done|].
  destruct (f a x) as [a'|e]; simpl; [apply IH | done].
Qed.

(** ** Ordered dictionaries *)

Lemma od_get_None_keys (k : string) (d : odict) :
  od_get k d = None <-> k ∉ keys d.
Proof.
  induction d as [|[k' v] d IH]; simpl.
  - split; [intros _ H; by apply elem_of_nil in H | done].
  - rewrite not_elem_of_cons. destruct (String.eqb_spec k' k) as [->|Hne].
    + split; [discriminate | intros [? _]; done].
    + rewrite IH. split; [intros ?; split; [congruence | done] | tauto].
Qed.

Lemma od_setitem_fresh (k : string) (v : json) (d : odict) :
  k ∉ keys d -> od_setitem k v d = d ++ [(k, v)].
Proof.
  induction d as [|[k' v'] d IH]; simpl; [done|].
  rewrite not_elem_of_cons. intros [Hne Hk].
  destruct (String.eqb_spec k' k) as [->|_]; [done|]. by rewrite IH.
Qed.

Lemma OrderedDict_app_fresh (acc pairs : list (string * json)) :
  NoDup (keys (acc ++ pairs)) ->
  foldl (fun d kv => od_setitem kv.1 kv.2 d) acc pairs = acc ++ pairs.
Proof.
  revert acc. induction pairs as [|[k v] pairs IH]; intros acc Hnd; simpl.
  - by rewrite app_nil_r.
  - rewrite od_setitem_fresh.
    + rewrite IH; rewrite <- app_assoc; simpl; [done|exact Hnd].
    + unfold keys in Hnd. rewrite fmap_app in Hnd. simpl in Hnd.
      apply NoDup_app in Hnd as (_ & Hdisj & _).
      intros Hin. apply (Hdisj k Hin). apply elem_of_cons; auto.
Qed.

(** Building an [OrderedDict] from pairs with distinct keys keeps them as
    they are. *)
Lemma OrderedDict_NoDup (pairs : list (string * json)) :
  NoDup (keys pairs) -> OrderedDict pairs = pairs.
Proof. intros Hnd. by apply (OrderedDict_app_fresh []). Qed.

Lemma od_setitem_Forall (P : json -> Prop) (k : string) (v : json) (d : odict) :
  P v -> Forall (fun kv => P kv.2) d -> Forall (fun kv => P kv.2) (od_setitem k v d).
Proof.
  intros Hv. induction 1 as [|[k' v'] d Hkv Hd IH]; simpl.
  - by constructor.
  - destruct (String.eqb k' k); constructor; auto.
Qed.

Lemma OrderedDict_Forall (P : json -> Prop) (pairs : list (string * json)) :
  Forall (fun kv => P kv.2) pairs -> Forall (fun kv => P kv.2) (OrderedDict pairs).
Proof.
  unfold OrderedDict. intros Hp.
  assert (Hacc : Forall (fun kv => P kv.2) (@nil (string * json))) by constructor.
  revert Hacc. generalize (@nil (string * json)) as acc.
  induction Hp as [|[k v] pairs Hkv Hp IH]; intros acc Hacc; simpl; [done|].
  apply IH. by apply od_setitem_Forall.
Qed.

(** ** Pruning *)

Lemma py_in_empties_false (v : json) :
  py_in_empties v = false <-> nonempty v.
Proof.
  unfold nonempty. split.
  - intros H. repeat split; intros ->; discriminate.
  - intros (H1 & H2 & H3).
    destruct v as [| | | |s|l|]; try done; [by destruct s | by destruct l].
Qed.

Lemma py_in_empties_true (v : json) :
  py_in_empties v = true <-> v = JNull \/ v = JStr "" \/ v = JArr [].
Proof.
  split.
  - destruct v as [| | | |s|l|]; try discriminate; auto.
    + destruct s; [auto | discriminate].
    + destruct l; [auto | discriminate].
  - intros [->|[->| ->]]; done.
Qed.

Lemma kept_Forall (data : odict) : Forall (fun kv => nonempty kv.2) (kept data).
Proof.
  apply Forall_forall. intros [k v] Hin.
  apply list_elem_of_In, filter_In in Hin as [_ Hv].
  apply py_in_empties_false. by apply negb_true_iff.
Qed.

Lemma kept_sublist (data : odict) : kept data `sublist_of` data.
Proof.
  unfold kept. induction data as [|[k v] data IH]; simpl; [constructor|].
  destruct (negb (py_in_empties v)); by constructor.
Qed.

Lemma kept_keys_NoDup (data : odict) : NoDup (keys data) -> NoDup (keys (kept data)).
Proof.
  intros Hnd. eapply sublist_NoDup; [exact Hnd|].
  apply fmap_sublist, kept_sublist.
Qed.

Lemma filter_empty_fields_eq :
  Phrasebooks.filter_empty_fields = Dictionaries.filter_empty_fields.
Proof. reflexivity. Qed.

(** On a dictionary (distinct keys) pruning is a plain filter of its items. *)
Lemma filter_empty_fields_kept (data : odict) :
  NoDup (keys data) -> Dictionaries.filter_empty_fields data = kept data.
Proof.
  intros Hnd. unfold Dictionaries.filter_empty_fields.
  apply OrderedDict_NoDup. by apply kept_keys_NoDup.
Qed.

Lemma filter_empty_fields_lookup (data : odict) (k : string) :
  NoDup (keys data) ->
  od_get k (Dictionaries.filter_empty_fields data) =
    match od_get k data with
    | Some v => if py_in_empties v then None else Some v
    | None => None
    end.
Proof.
  intros Hnd. rewrite filter_empty_fields_kept by done.
  induction data as [|[k' v'] data IH]; simpl; [done|].
  apply NoDup_cons in Hnd as [Hk' Hnd]. simpl in Hk'.
  unfold kept in *. simpl.
  destruct (py_in_empties v') eqn:Hv'; simpl.
  - destruct (String.eqb_spec k' k) as [->|Hne]; [|auto].
    rewrite IH, Hv' by done.
    by apply od_get_None_keys in Hk' as ->.
  - destruct (String.eqb_spec k' k) as [->|Hne]; [by rewrite Hv'|auto].
Qed.

(** ** Normalisers, unfolded *)

Ltac distinct_keys := apply (bool_decide_unpack _); vm_compute; exact I.

Lemma definition_data_NoDup fields title link :
  NoDup (keys (definition_data fields title link)).
Proof. distinct_keys. Qed.

Lemma translation_data_NoDup fields title link :
  NoDup (keys (translation_data fields title link)).
Proof. distinct_keys. Qed.

Lemma ensure_ordered_definition_obj (fields : odict) (meta : json) :
  Dictionaries.ensure_ordered_definition (JObj fields) meta =
    (title ← py_getitem meta "source_title";
     link ← py_get meta "source_link" (Ok JNull);
     Ok (JObj (kept (definition_data fields title link)))).
Proof.
  unfold Dictionaries.ensure_ordered_definition. simpl.
  destruct (py_getitem meta "source_title") as [title|e]; simpl; [|done].
  destruct (py_get meta "source_link" (Ok JNull)) as [link|e]; simpl; [|done].
  do 2 f_equal.
  rewrite <- (filter_empty_fields_kept _ (definition_data_NoDup fields title link)).
  reflexivity.
Qed.

Lemma ensure_ordered_definition_not_obj (d meta : json) :
  (forall fields, d <> JObj fields) ->
  Dictionaries.ensure_ordered_definition d meta = Err AttributeError.
Proof. intros H. destruct d; try done. by destruct (H fields). Qed.

Lemma ensure_ordered_translation_obj (fields : odict) (meta : json) :
  Phrasebooks.ensure_ordered_translation (JObj fields) meta =
    (title ← py_get meta "source_title" (Ok JNull);
     link ← py_get meta "source_link" (Ok JNull);
     Ok (JObj (kept (translation_data fields title link)))).
Proof.
  unfold Phrasebooks.ensure_ordered_translation. simpl.
  destruct (py_get meta "source_title" (Ok JNull)) as [title|e]; simpl; [|done].
  destruct (py_get meta "source_link" (Ok JNull)) as [link|e]; simpl; [|done].
  do 2 f_equal. rewrite filter_empty_fields_eq.
  rewrite <- (filter_empty_fields_kept _ (translation_data_NoDup fields title link)).
  reflexivity.
Qed.

Lemma ensure_ordered_translation_not_obj (t meta : json) :
  (forall fields, t <> JObj fields) ->
  Phrasebooks.ensure_ordered_translation t meta = Err AttributeError.
Proof. intros H. destruct t; try done. by destruct (H fields). Qed.

Lemma dictionary_entry_obj (fields : odict) (meta : json) :
  Dictionaries.ensure_ordered_entry (JObj fields) meta =
    (ds ← py_iter (get_or fields "definitions" (JArr []));
     definitions ← mapM (fun d => Dictionaries.ensure_ordered_definition d meta) ds;
     Ok (JObj (kept (dictionary_entry_data fields definitions)))).
Proof.
  unfold Dictionaries.ensure_ordered_entry. simpl. fold (get_or fields "definitions" (JArr [])).
  destruct (py_iter _) as [ds|e]; simpl; [|done].
  destruct (mapM _ ds) as [definitions|e]; simpl; [|done].
  do 2 f_equal.
  rewrite <- (filter_empty_fields_kept (dictionary_entry_data fields definitions))
    by distinct_keys.
  reflexivity.
Qed.

Lemma phrasebook_entry_obj (fields : odict) (meta : json) :
  Phrasebooks.ensure_ordered_entry (JObj fields) meta =
    (ts ← py_iter (get_or fields "translations" JNull);
     translations ← mapM (fun t => Phrasebooks.ensure_ordered_translation t meta) ts;
     Ok (JObj (kept (phrasebook_entry_data fields translations)))).
Proof.
  unfold Phrasebooks.ensure_ordered_entry. simpl. fold (get_or fields "translations" JNull).
  destruct (py_iter _) as [ts|e]; simpl; [|done].
  destruct (mapM _ ts) as [translations|e]; simpl; [|done].
  do 2 f_equal.
  assert (Hnd : NoDup (keys (phrasebook_entry_data fields translations))) by distinct_keys.
  transitivity (OrderedDict (Dictionaries.filter_empty_fields
                               (phrasebook_entry_data fields translations)));
    [reflexivity|].
  rewrite (filter_empty_fields_kept _ Hnd).
  by apply OrderedDict_NoDup, kept_keys_NoDup.
Qed.

Lemma od_get_setitem_eq (k : string) (v : json) (d : odict) :
  od_get k (od_setitem k v d) = Some v.
Proof.
  induction d as [|[k' v'] d IH]; simpl.
  - by rewrite String.eqb_refl.
  - destruct (String.eqb_spec k' k) as [->|Hne]; simpl.
    + by rewrite String.eqb_refl.
    + by destruct (String.eqb_spec k' k).
Qed.

Lemma od_get_setitem_ne (k k' : string) (v : json) (d : odict) :
  k <> k' -> od_get k' (od_setitem k v d) = od_get k' d.
Proof.
  intros Hne. induction d as [|[k0 v0] d IH]; simpl.
  - by destruct (String.eqb_spec k k').
  - destruct (String.eqb_spec k0 k) as [->|Hne0]; simpl.
    + by destruct (String.eqb_spec k k').
    + by rewrite IH.
Qed.

Lemma kept_lookup (data : odict) (k : string) :
  NoDup (keys data) ->
  od_get k (kept data) =
    match od_get k data with
    | Some v => if py_in_empties v then None else Some v
    | None => None
    end.
Proof.
  intros Hnd. rewrite <- (filter_empty_fields_kept _ Hnd).
  by apply filter_empty_fields_lookup.
Qed.

(** ** The four normalisers and their canonical records *)

(** Every emitted record is the pruning of a record that has exactly the
    canonical keys, in the canonical order. *)
Lemma normalise_Ok (kind : record_kind) (raw meta r : json) :
  normalise kind raw meta = Ok r ->
  exists data, keys data = canonical_order kind /\ r = JObj (kept data).
Proof.
  intros H. destruct raw as [| | | | | |fields];
    try (destruct kind; discriminate H).
  destruct kind; simpl in H.
  - rewrite dictionary_entry_obj in H. do 2 bind_inv H. injection H as <-.
    by eexists (dictionary_entry_data _ _).
  - rewrite ensure_ordered_definition_obj in H. do 2 bind_inv H. injection H as <-.
    by eexists (definition_data _ _ _).
  - rewrite phrasebook_entry_obj in H. do 2 bind_inv H. injection H as <-.
    by eexists (phrasebook_entry_data _ _).
  - rewrite ensure_ordered_translation_obj in H. do 2 bind_inv H. injection H as <-.
    by eexists (translation_data _ _ _).
Qed.

(** The sub-records nested in an entry are themselves emitted by the
    sub-record normaliser. *)
Lemma dictionary_entry_definitions (entry meta r : json) :
  Dictionaries.ensure_ordered_entry entry meta = Ok r ->
  exists fields raw ds,
    r = JObj fields /\
    Forall2 (fun d d' => Dictionaries.ensure_ordered_definition d meta = Ok d') raw ds /\
    od_get "definitions" fields = match ds with [] => None | _ => Some (JArr ds) end.
Proof.
  intros H. destruct entry as [| | | | | |fields]; try discriminate H.
  rewrite dictionary_entry_obj in H. do 2 bind_inv H. injection H as <-.
  apply mapM_Ok in Hx0. eexists _, x, x0. split; [done|]. split; [done|].
  rewrite kept_lookup by distinct_keys. simpl. by destruct x0.
Qed.

Lemma phrasebook_entry_translations (entry meta r : json) :
  Phrasebooks.ensure_ordered_entry entry meta = Ok r ->
  exists fields raw ts,
    r = JObj fields /\
    Forall2 (fun t t' => Phrasebooks.ensure_ordered_translation t meta = Ok t') raw ts /\
    od_get "translations" fields = match ts with [] => None | _ => Some (JArr ts) end.
Proof.
  intros H. destruct entry as [| | | | | |fields]; try discriminate H.
  rewrite phrasebook_entry_obj in H. do 2 bind_inv H. injection H as <-.
  apply mapM_Ok in Hx0. eexists _, x, x0. split; [done|]. split; [done|].
  rewrite kept_lookup by distinct_keys. simpl. by destruct x0.
Qed.

(** ** Claims about the normalisers *)

(** C2 (pruning invariant).  Whatever record one of the four normalisers
    emits (dictionary entry, definition, phrasebook entry, translation), none
    of its keys maps to [None], to the empty string or to an empty list. *)
Theorem pruning_invariant (kind : record_kind) (raw meta r : json) :
  normalise kind raw meta = Ok r -> pruned r.
Proof.
  intros (data & _ & ->)%normalise_Ok. exists (kept data). split; [done|].
  intros k v Hin.
  exact (proj1 (Forall_forall _ _) (kept_Forall data) (k, v) Hin).
Qed.

Lemma pruning_invariant_witness :
  normalise DictionaryEntry Samples.entry_aso Samples.meta_S1 =
    Ok (JObj [("word", JStr "aso");
              ("definitions",
               JArr [JObj [("description", JStr "dog"); ("source_title", JStr "S1")]])])
  /\ pruned (JObj [("word", JStr "aso");
                   ("definitions",
                    JArr [JObj [("description", JStr "dog"); ("source_title", JStr "S1")]])]).
Proof.
  split; [reflexivity|].
  apply (pruning_invariant DictionaryEntry Samples.entry_aso Samples.meta_S1).
  reflexivity.
Defined.

(** C3 (field-order invariant).  The keys of an emitted record, in the
    order the record holds them, form a subsequence of the canonical field
    order of its kind: for a definition [description, pos, origin,
    usage_note, synonyms, antonyms, inflections, examples, source_title,
    source_link], for a translation [content, examples, source_title,
    source_link].  Pruning drops keys and keeps the order of the others. *)
Theorem field_order_invariant (kind : record_kind) (raw meta r : json) :
  normalise kind raw meta = Ok r ->
  exists fields, r = JObj fields /\ keys fields `sublist_of` canonical_order kind.
Proof.
  intros (data & Hkeys & ->)%normalise_Ok. exists (kept data). split; [done|].
  rewrite <- Hkeys. apply fmap_sublist, kept_sublist.
Qed.

Lemma field_order_invariant_witness :
  normalise DictionaryDefinition Samples.def_cat Samples.meta_S1 =
    Ok (JObj [("description", JStr "cat"); ("source_title", JStr "S2")])
  /\ exists fields,
       JObj [("description", JStr "cat"); ("source_title", JStr "S2")] = JObj fields /\
       keys fields `sublist_of` canonical_order DictionaryDefinition.
Proof.
  split; [reflexivity|].
  apply (field_order_invariant DictionaryDefinition Samples.def_cat Samples.meta_S1).
  reflexivity.
Defined.

(** C7.  [filter_empty_fields] (either copy) keeps a field whose value is
    [False] or the number [0]: a field is dropped exactly when its value is
    [None], [""] or [[]]. *)
Theorem falsy_values_survive (data : odict) (k : string) (v : json) :
  NoDup (keys data) ->
  od_get k data = Some v ->
  (v = JBool false \/ v = JInt 0 \/ v = JFloat 0 ->
     od_get k (Dictionaries.filter_empty_fields data) = Some v /\
     od_get k (Phrasebooks.filter_empty_fields data) = Some v) /\
  (od_get k (Dictionaries.filter_empty_fields data) = None <->
     v = JNull \/ v = JStr "" \/ v = JArr []) /\
  (od_get k (Phrasebooks.filter_empty_fields data) = None <->
     v = JNull \/ v = JStr "" \/ v = JArr []).
Proof.
  intros Hnd Hk. rewrite filter_empty_fields_eq.
  rewrite (filter_empty_fields_lookup data k Hnd), Hk.
  split; [|split].
  - by intros [->|[->| ->]].
  - rewrite <- py_in_empties_true. by destruct (py_in_empties v).
  - rewrite <- py_in_empties_true. by destruct (py_in_empties v).
Qed.

Lemma falsy_values_survive_witness :
  od_get "count" (Dictionaries.filter_empty_fields
                    [("word", JStr ""); ("count", JInt 0); ("flag", JBool false)])
    = Some (JInt 0).
Proof.
  apply (falsy_values_survive
           [("word", JStr ""); ("count", JInt 0); ("flag", JBool false)]
           "count" (JInt 0)).
  - distinct_keys.
  - reflexivity.
  - right; left; reflexivity.
Defined.

(** C8.  A raw dictionary entry without a [definitions] key is normalised
    without error, to the same record as the entry with [definitions] set
    to an empty list. *)
Theorem missing_definitions_as_empty (fields : odict) (meta : json) :
  od_get "definitions" fields = None ->
  exists r,
    Dictionaries.ensure_ordered_entry (JObj fields) meta = Ok r /\
    Dictionaries.ensure_ordered_entry
      (JObj (od_setitem "definitions" (JArr []) fields)) meta = Ok r.
Proof.
  intros Hnone. rewrite !dictionary_entry_obj.
  assert (H1 : get_or fields "definitions" (JArr []) = JArr [])
    by (unfold get_or; by rewrite Hnone).
  assert (H2 : get_or (od_setitem "definitions" (JArr []) fields) "definitions" (JArr [])
               = JArr [])
    by (unfold get_or; by rewrite od_get_setitem_eq).
  rewrite H1, H2. simpl.
  eexists. split; [reflexivity|].
  unfold dictionary_entry_data, get_or.
  by rewrite od_get_setitem_ne.
Qed.

Lemma missing_definitions_as_empty_witness :
  exists r,
    Dictionaries.ensure_ordered_entry (JObj [("word", JStr "aso")]) Samples.meta_bare
      = Ok r /\
    Dictionaries.ensure_ordered_entry
      (JObj (od_setitem "definitions" (JArr []) [("word", JStr "aso")])) Samples.meta_bare
      = Ok r.
Proof.
  apply (missing_definitions_as_empty [("word", JStr "aso")] Samples.meta_bare).
  reflexivity.
Defined.



(** ** The aggregation loop *)

Section Loop.
Variable dom : domain.
Variable py_str : json -> string.

Let contribution :=
  Aggregator.contribution (prefix_of dom) (second_key_of dom) (normalise_entry dom) py_str.
Let merge_file :=
  Aggregator.merge_file (prefix_of dom) (second_key_of dom) (normalise_entry dom) py_str.

Lemma merge_file_generic (m : merged) (data : json) :
  match dom with
  | Dictionary => Dictionaries.merge_file py_str m data
  | Phrasebook => Phrasebooks.merge_file py_str m data
  end = merge_file m data.
Proof.
  subst merge_file.
  unfold Aggregator.merge_file, Aggregator.contribution,
    Dictionaries.merge_file, Phrasebooks.merge_file.
  destruct dom; simpl;
    (destruct (py_getitem data "meta") as [meta|e]; simpl; [|done]);
    (destruct (py_getitem data "entries") as [entries|e]; simpl; [|done]);
    (destruct (py_getitem meta "lang") as [lang|e]; simpl; [|done]);
    (destruct (py_getitem meta _) as [second|e]; simpl; [|done]);
    (destruct (py_iter entries) as [items|e]; simpl; [|done]);
    (destruct (mapM _ items) as [new|e]; simpl; done).
Qed.

Lemma collect_generic (parsed : list json) :
  collect dom py_str parsed = foldlM merge_file [] parsed.
Proof.
  assert (H : forall m, foldlM merge_file m parsed =
              match dom with
              | Dictionary => foldlM (Dictionaries.merge_file py_str) m parsed
              | Phrasebook => foldlM (Phrasebooks.merge_file py_str) m parsed
              end).
  { induction parsed as [|data parsed IH]; intros m; simpl; [by destruct dom|].
    rewrite <- merge_file_generic.
    destruct dom; (destruct (_ py_str m data) as [m'|e]; simpl; [apply IH | done]). }
  rewrite H. by destruct dom.
Qed.

Lemma main_generic (open_raises : string -> option exn)
    (dump_raises : json -> option exn)
    (files : gmap string content) (parsed : list json) :
  main dom py_str open_raises dump_raises files parsed =
    match collect dom py_str parsed with
    | Ok m => write_groups open_raises dump_raises files m
    | Err e => (files, Err e)
    end.
Proof. by destruct dom. Qed.

Lemma contribution_Ok (data : json) (k : string) (meta : odict) (new : list json) :
  contribution data = Ok (k, meta, new) ->
  group_key dom py_str data = Ok k /\ normalised_entries dom data = Ok new.
Proof.
  subst contribution. unfold Aggregator.contribution, group_key, normalised_entries.
  intros H. do 6 bind_inv H. injection H as <- <- <-.
  rewrite Hx. simpl. rewrite Hx0, Hx1. simpl. rewrite Hx2, Hx3. simpl.
  by rewrite Hx4.
Qed.
End Loop.

(** ** The map of groups *)

Lemma md_get_update (k k' : string) (f : group -> group) (m : merged) :
  md_get k' (md_update k f m) =
    if String.eqb k k' then Some (f (group_or_default (md_get k m))) else md_get k' m.
Proof.
  induction m as [|[k0 g0] m IH]; simpl.
  - by destruct (String.eqb k k').
  - destruct (String.eqb_spec k0 k) as [->|Hne]; simpl.
    + by destruct (String.eqb_spec k k').
    + rewrite IH. destruct (String.eqb_spec k k') as [->|Hne'].
      * by destruct (String.eqb_spec k0 k').
      * done.
Qed.

Lemma md_update_keys_old (k : string) (f : group -> group) (m : merged) :
  k ∈ m.*1 -> (md_update k f m).*1 = m.*1.
Proof.
  induction m as [|[k0 g0] m IH]; simpl; intros Hin.
  - by apply elem_of_nil in Hin.
  - destruct (String.eqb_spec k0 k) as [->|Hne]; simpl; [done|].
    apply elem_of_cons in Hin as [->|Hin]; [done|]. f_equal. by apply IH.
Qed.

Lemma md_update_keys_new (k : string) (f : group -> group) (m : merged) :
  k ∉ m.*1 -> (md_update k f m).*1 = m.*1 ++ [k].
Proof.
  induction m as [|[k0 g0] m IH]; simpl; intros Hnin; [done|].
  apply not_elem_of_cons in Hnin as [Hne Hnin].
  destruct (String.eqb_spec k0 k) as [->|_]; simpl; [done|]. f_equal. by apply IH.
Qed.

Lemma md_update_NoDup (k : string) (f : group -> group) (m : merged) :
  NoDup m.*1 -> NoDup (md_update k f m).*1.
Proof.
  intros Hnd. destruct (decide (k ∈ m.*1)) as [Hk|Hk].
  - by rewrite md_update_keys_old.
  - rewrite md_update_keys_new by done.
    apply NoDup_app. split; [done|]. split; [|apply NoDup_singleton].
    intros x Hx ->%list_elem_of_singleton. done.
Qed.

Lemma md_get_None_keys (k : string) (m : merged) :
  md_get k m = None <-> k ∉ m.*1.
Proof.
  induction m as [|[k' g] m IH]; simpl.
  - split; [intros _ H; by apply elem_of_nil in H | done].
  - rewrite not_elem_of_cons. destruct (String.eqb_spec k' k) as [->|Hne].
    + split; [discriminate | intros [? _]; done].
    + rewrite IH. split; [intros ?; split; [congruence | done] | tauto].
Qed.

Section WritingFacts.
Variable open_raises : string -> option exn.
Variable dump_raises : json -> option exn.

(** The loop ends without error exactly when every group can be written,
    whatever the directory holds. *)
Lemma write_groups_Ok_iff (files : gmap string content) (m : merged) :
  (exists files', write_groups open_raises dump_raises files m = (files', Ok ()))
  <-> Forall (writable open_raises dump_raises) m.
Proof.
  revert files. induction m as [|[k g] m IH]; intros files; simpl.
  - split; [constructor | eauto].
  - rewrite Forall_cons. unfold writable at 1. simpl.
    destruct (open_raises k) as [e|].
    { split; [intros [files' H]; discriminate H | intros [[H _] _]; discriminate H]. }
    destruct (dump_raises (group_json g)) as [e|].
    { split; [intros [files' H]; discriminate H | intros [[_ H] _]; discriminate H]. }
    rewrite IH. tauto.
Qed.

(** After a loop that ended without error each key of the map holds the
    whole document of its group, and every other file is as it was. *)
Lemma write_groups_Ok_lookup (files files' : gmap string content) (m : merged)
    (k : string) :
  NoDup m.*1 ->
  write_groups open_raises dump_raises files m = (files', Ok ()) ->
  files' !! k =
    match md_get k m with
    | Some g => Some (Complete (group_json g))
    | None => files !! k
    end.
Proof.
  revert files. induction m as [|[k0 g0] m IH]; intros files Hnd H; simpl in *.
  - by injection H as <-.
  - apply NoDup_cons in Hnd as [Hk0 Hnd].
    destruct (open_raises k0) as [e|]; [discriminate H|].
    destruct (dump_raises (group_json g0)) as [e|]; [discriminate H|].
    rewrite (IH _ Hnd H).
    destruct (String.eqb_spec k0 k) as [->|Hne].
    + apply md_get_None_keys in Hk0. rewrite Hk0. apply lookup_insert_eq.
    + destruct (md_get k m); [done|]. by apply lookup_insert_ne.
Qed.

(** A loop that raises stops at the first group that cannot be written: the
    groups before it hold their whole documents, the group itself is
    untouched when its file did not open and incomplete when its dump
    raised, and the groups after it are never reached. *)
Lemma write_groups_Err (files files' : gmap string content) (m : merged) (e : exn) :
  write_groups open_raises dump_raises files m = (files', Err e) ->
  exists before k g after,
    m = before ++ (k, g) :: after /\
    Forall (writable open_raises dump_raises) before /\
    exists written,
      write_groups open_raises dump_raises files before = (written, Ok ()) /\
      ((open_raises k = Some e /\ files' = written) \/
       (open_raises k = None /\ dump_raises (group_json g) = Some e /\
        files' = <[k := Incomplete (group_json g)]> written)).
Proof.
  revert files. induction m as [|[k0 g0] m IH]; intros files H; simpl in H.
  - discriminate H.
  - destruct (open_raises k0) as [e0|] eqn:Hopen.
    { injection H as <- <-. exists [], k0, g0, m. split; [done|].
      split; [constructor|]. exists files. split; [done|]. by left. }
    destruct (dump_raises (group_json g0)) as [e0|] eqn:Hdump.
    { injection H as <- <-. exists [], k0, g0, m. split; [done|].
      split; [constructor|]. exists files. split; [done|]. right. by rewrite Hopen. }
    destruct (IH _ H) as (before & k & g & after & -> & Hbefore & written & Hw & Hcase).
    exists ((k0, g0) :: before), k, g, after. split; [done|].
    split; [by constructor|].
    exists written. split; [|done]. simpl. by rewrite Hopen, Hdump.
Qed.
End WritingFacts.

Section LoopFacts.
Variable dom : domain.
Variable py_str : json -> string.

Let contribution :=
  Aggregator.contribution (prefix_of dom) (second_key_of dom) (normalise_entry dom) py_str.
Let merge_file :=
  Aggregator.merge_file (prefix_of dom) (second_key_of dom) (normalise_entry dom) py_str.

(** One file appends its normalised entries to the group of its key and
    leaves every other group alone. *)
Lemma merge_file_Ok (m m' : merged) (data : json) :
  merge_file m data = Ok m' ->
  exists k new,
    group_key dom py_str data = Ok k /\
    normalised_entries dom data = Ok new /\
    (exists g', md_get k m' = Some g' /\
       g_entries g' = g_entries (group_or_default (md_get k m)) ++ new) /\
    (forall k', k' <> k -> md_get k' m' = md_get k' m) /\
    (NoDup m.*1 -> NoDup m'.*1).
Proof.
  subst merge_file. unfold Aggregator.merge_file. intros H. bind_inv H.
  destruct x as [[k meta] new]. injection H as <-.
  destruct (contribution_Ok dom py_str data k meta new Hx) as [Hk Hnew].
  exists k, new. split; [done|]. split; [done|]. split; [|split].
  - rewrite !md_get_update, String.eqb_refl. simpl. eauto.
  - intros k' Hne. rewrite !md_get_update.
    by destruct (String.eqb_spec k k') as [->|_].
  - intros Hnd. by do 2 apply md_update_NoDup.
Qed.

Lemma foldlM_merge_NoDup (parsed : list json) (m0 m : merged) :
  foldlM merge_file m0 parsed = Ok m -> NoDup m0.*1 -> NoDup m.*1.
Proof.
  revert m0. induction parsed as [|data parsed IH]; intros m0 H Hnd; simpl in H.
  - by injection H as <-.
  - bind_inv H. apply (IH x H).
    destruct (merge_file_Ok _ _ _ Hx) as (k & new & _ & _ & _ & _ & Hnd'). auto.
Qed.

(** Groups only grow: later files append after what a group already holds. *)
Lemma foldlM_merge_grows (parsed : list json) (m0 m : merged) (k : string) (g0 : group) :
  foldlM merge_file m0 parsed = Ok m ->
  md_get k m0 = Some g0 ->
  exists g extra, md_get k m = Some g /\ g_entries g = g_entries g0 ++ extra.
Proof.
  revert m0 g0. induction parsed as [|data parsed IH]; intros m0 g0 H Hg0; simpl in H.
  - injection H as <-. exists g0, []. by rewrite app_nil_r.
  - bind_inv H.
    destruct (merge_file_Ok _ _ _ Hx) as (k1 & new & _ & _ & (g' & Hg' & Hent) & Hother & _).
    destruct (decide (k = k1)) as [->|Hne].
    + rewrite Hg0 in Hent. simpl in Hent.
      destruct (IH x g' H Hg') as (g & extra & Hg & Hge).
      exists g, (new ++ extra). split; [done|]. by rewrite Hge, Hent, app_assoc.
    + apply (IH x g0 H). by rewrite Hother.
Qed.

Lemma collect_NoDup (parsed : list json) (m : merged) :
  collect dom py_str parsed = Ok m -> NoDup m.*1.
Proof.
  rewrite collect_generic. intros H.
  apply (foldlM_merge_NoDup parsed [] m H). constructor.
Qed.
End LoopFacts.

(** A file contributes one normalised record per entry, in the order of
    its entries. *)
Lemma normalised_entries_pointwise (dom : domain) (data : json) (new : list json) :
  normalised_entries dom data = Ok new ->
  exists meta entries items,
    py_getitem data "meta" = Ok meta /\
    py_getitem data "entries" = Ok entries /\
    py_iter entries = Ok items /\
    length new = length items /\
    Forall2 (fun entry r => normalise_entry dom entry meta = Ok r) items new.
Proof.
  unfold normalised_entries. intros H. do 3 bind_inv H.
  exists x, x0, x1. repeat split; try done.
  - by eapply mapM_length.
  - by apply mapM_Ok.
Qed.

(** ** Claims about aggregation *)

(** C4 (grouping invariant).  When two loaded files [B1] and [B2] yield the
    same group key and [B1] is processed before [B2], the group of that key
    holds the normalised entries of [B1], then (possibly after those of
    files in between) the normalised entries of [B2]; each file contributes
    one normalised record per entry, in the order of its entries, and
    nothing is merged or removed. *)
Theorem grouping_invariant (dom : domain) (py_str : json -> string)
    (pre mid post : list json) (B1 B2 : json) (m : merged) (k : string) :
  collect dom py_str (pre ++ B1 :: mid ++ B2 :: post) = Ok m ->
  group_key dom py_str B1 = Ok k ->
  group_key dom py_str B2 = Ok k ->
  exists g new1 new2 before between after,
    md_get k m = Some g /\
    normalised_entries dom B1 = Ok new1 /\
    normalised_entries dom B2 = Ok new2 /\
    g_entries g = before ++ new1 ++ between ++ new2 ++ after.
Proof.
  rewrite collect_generic. intros H Hk1 Hk2.
  rewrite foldlM_app in H. bind_inv H. simpl in H. bind_inv H.
  rewrite foldlM_app in H. bind_inv H. simpl in H. bind_inv H.
  destruct (merge_file_Ok dom py_str _ _ _ Hx0)
    as (k1 & new1 & Hk1' & Hnew1 & (g1 & Hg1 & Hent1) & _ & _).
  destruct (merge_file_Ok dom py_str _ _ _ Hx2)
    as (k2 & new2 & Hk2' & Hnew2 & (g2 & Hg2 & Hent2) & _ & _).
  assert (k1 = k) as -> by congruence. assert (k2 = k) as -> by congruence.
  destruct (foldlM_merge_grows dom py_str _ _ _ _ _ Hx1 Hg1) as (g1' & between & Hg1' & Hent1').
  rewrite Hg1' in Hent2. simpl in Hent2.
  destruct (foldlM_merge_grows dom py_str _ _ _ _ _ H Hg2) as (g & after & Hg & Hent).
  exists g, new1, new2, (g_entries (group_or_default (md_get k x))), between, after.
  repeat split; try done.
  by rewrite Hent, Hent2, Hent1', Hent1, <- !app_assoc.
Qed.

Lemma grouping_invariant_witness :
  exists g before between after,
    md_get "dictionary_tgl_eng.json" [("dictionary_tgl_eng.json",
       Group [("lang", JStr "tgl"); ("definition_lang", JStr "eng")]
             [Samples.aso_S1; Samples.aso_S3; Samples.pusa_S2])] = Some g /\
    g_entries g =
      before ++ [Samples.aso_S1] ++ between
             ++ [Samples.aso_S3; Samples.pusa_S2] ++ after.
Proof.
  destruct (grouping_invariant Dictionary Samples.text_of [] [] []
              Samples.batch_A Samples.batch_C
              [("dictionary_tgl_eng.json",
                Group [("lang", JStr "tgl"); ("definition_lang", JStr "eng")]
                      [Samples.aso_S1; Samples.aso_S3; Samples.pusa_S2])]
              "dictionary_tgl_eng.json")
    as (g & new1 & new2 & before & between & after & Hg & Hn1 & Hn2 & Hent);
    [reflexivity | reflexivity | reflexivity |].
  injection Hn1 as <-. injection Hn2 as <-.
  exists g, before, between, after. split; assumption.
Defined.

Lemma foldlM_Err_elem {A B} (f : A -> B -> result A) (l : list B) (x : B) :
  x ∈ l -> (forall a, exists e, f a x = Err e) ->
  forall a, exists e, foldlM f a l = Err e.
Proof.
  intros Hin Hx. induction l as [|y l IH]; intros a; [by apply elem_of_nil in Hin|].
  simpl. apply elem_of_cons in Hin as [->|Hin].
  - destruct (Hx a) as [e ->]. eauto.
  - destruct (f a y) as [a'|e]; simpl; [by apply IH | eauto].
Qed.

(** C5, as the code has it.  Nothing catches the exception of an entry that
    fails to normalise: when an entry of a loaded file raises, the collector
    raises as well and the run ends with that error before any file is
    written. *)
Theorem entry_failure_aborts (dom : domain) (py_str : json -> string)
    (open_raises : string -> option exn) (dump_raises : json -> option exn)
    (files : gmap string content) (parsed : list json)
    (data meta entries entry : json) (items : list json) (e : exn) :
  data ∈ parsed ->
  py_getitem data "meta" = Ok meta ->
  py_getitem data "entries" = Ok entries ->
  py_iter entries = Ok items ->
  entry ∈ items ->
  normalise_entry dom entry meta = Err e ->
  exists e', collect dom py_str parsed = Err e' /\
             main dom py_str open_raises dump_raises files parsed = (files, Err e').
Proof.
  intros Hdata Hmeta Hentries Hitems Hentry Hfail.
  rewrite main_generic, collect_generic.
  destruct (foldlM_Err_elem
              (Aggregator.merge_file (prefix_of dom) (second_key_of dom)
                 (normalise_entry dom) py_str) parsed data Hdata) with (a := @nil (string * group))
    as [e' He'].
  - intros a. unfold Aggregator.merge_file, Aggregator.contribution.
    rewrite Hmeta. simpl. rewrite Hentries. simpl.
    destruct (py_getitem meta "lang") as [lang|e1]; simpl; [|eauto].
    destruct (py_getitem meta (second_key_of dom)) as [second|e1]; simpl; [|eauto].
    rewrite Hitems. simpl.
    destruct (mapM_Err (fun x => normalise_entry dom x meta) items entry e Hentry Hfail)
      as [e1 ->].
    simpl. eauto.
  - exists e'. by rewrite He'.
Qed.

Lemma entry_failure_aborts_witness :
  exists e',
    collect Dictionary Samples.text_of [Samples.batch_broken] = Err e' /\
    main Dictionary Samples.text_of Samples.opens Samples.dumps ∅ [Samples.batch_broken]
      = (∅, Err e').
Proof.
  apply (entry_failure_aborts Dictionary Samples.text_of Samples.opens Samples.dumps
           ∅ [Samples.batch_broken]
           Samples.batch_broken Samples.meta_S1
           (JArr [Samples.entry_aso; Samples.entry_broken])
           Samples.entry_broken
           [Samples.entry_aso; Samples.entry_broken] AttributeError).
  - apply list_elem_of_singleton. reflexivity.
  - reflexivity.
  - reflexivity.
  - reflexivity.
  - apply elem_of_cons. right. apply list_elem_of_singleton. reflexivity.
  - reflexivity.
Defined.

(** C5 as stated fails: the batch holds one sound and one malformed entry;
    the sound one normalises, the malformed one raises, and the collector
    does not return the group without it but raises, and the run writes
    nothing. *)
Lemma entry_failure_not_skipped :
  normalise_entry Dictionary Samples.entry_aso Samples.meta_S1 = Ok Samples.aso_S1 /\
  normalise_entry Dictionary Samples.entry_broken Samples.meta_S1 = Err AttributeError /\
  collect Dictionary Samples.text_of [Samples.batch_broken] = Err AttributeError /\
  main Dictionary Samples.text_of Samples.opens Samples.dumps ∅ [Samples.batch_broken]
    = (∅, Err AttributeError) /\
  ~ (exists m, collect Dictionary Samples.text_of [Samples.batch_broken] = Ok m /\
               md_get "dictionary_tgl_eng.json" m
                 = Some (Group [("lang", JStr "tgl"); ("definition_lang", JStr "eng")]
                               [Samples.aso_S1])).
Proof.
  repeat split; try reflexivity.
  intros (m & Hm & _). discriminate Hm.
Qed.

(** C6, as the code has it.  A run over zero files writes nothing and
    raises nothing.  A group whose entry list ends up empty raises nothing
    either, and is written as every group is: after a run that ended without
    error its file holds the group meta and an empty [entries] list; and the
    run ends without error when the file of every group can be opened and
    its document dumped. *)
Theorem empty_group_is_written (dom : domain) (py_str : json -> string)
    (open_raises : string -> option exn) (dump_raises : json -> option exn)
    (files : gmap string content) (parsed : list json) (m : merged)
    (k : string) (g : group) :
  collect dom py_str parsed = Ok m ->
  md_get k m = Some g ->
  g_entries g = [] ->
  main dom py_str open_raises dump_raises files [] = (files, Ok ()) /\
  (forall files',
     main dom py_str open_raises dump_raises files parsed = (files', Ok ()) ->
     files' !! k =
       Some (Complete (JObj [("meta", JObj (g_meta g)); ("entries", JArr [])]))) /\
  (Forall (writable open_raises dump_raises) m ->
   exists files',
     main dom py_str open_raises dump_raises files parsed = (files', Ok ())).
Proof.
  intros Hm Hg Hent. split; [by destruct dom|].
  rewrite main_generic, Hm. split.
  - intros files' Hrun.
    rewrite (write_groups_Ok_lookup open_raises dump_raises files files' m k
               (collect_NoDup dom py_str parsed m Hm) Hrun).
    rewrite Hg. unfold group_json. by rewrite Hent.
  - intros Hw. by apply write_groups_Ok_iff.
Qed.

Lemma empty_group_is_written_witness :
  main Dictionary Samples.text_of Samples.opens Samples.dumps ∅ [] = (∅, Ok ()) /\
  (forall files',
     main Dictionary Samples.text_of Samples.opens Samples.dumps ∅ [Samples.batch_empty]
       = (files', Ok ()) ->
     files' !! "dictionary_tgl_eng.json" =
       Some (Complete
         (JObj [("meta", JObj [("lang", JStr "tgl"); ("definition_lang", JStr "eng")]);
                ("entries", JArr [])]))) /\
  (Forall (writable Samples.opens Samples.dumps)
     [("dictionary_tgl_eng.json",
       Group [("lang", JStr "tgl"); ("definition_lang", JStr "eng")] [])] ->
   exists files',
     main Dictionary Samples.text_of Samples.opens Samples.dumps ∅ [Samples.batch_empty]
       = (files', Ok ())).
Proof.
  apply (empty_group_is_written Dictionary Samples.text_of Samples.opens Samples.dumps
           ∅ [Samples.batch_empty]
           [("dictionary_tgl_eng.json",
             Group [("lang", JStr "tgl"); ("definition_lang", JStr "eng")] [])]
           "dictionary_tgl_eng.json"
           (Group [("lang", JStr "tgl"); ("definition_lang", JStr "eng")] [])).
  - reflexivity.
  - reflexivity.
  - reflexivity.
Defined.

(** C6 as stated fails: the only batch has no entries, its group ends up
    with zero entries, and the run, in a directory where every file can be
    written, still writes the file of that group. *)
Lemma empty_group_not_omitted :
  collect Dictionary Samples.text_of [Samples.batch_empty] =
    Ok [("dictionary_tgl_eng.json",
         Group [("lang", JStr "tgl"); ("definition_lang", JStr "eng")] [])] /\
  main Dictionary Samples.text_of Samples.opens Samples.dumps ∅ [Samples.batch_empty] =
    ({[ "dictionary_tgl_eng.json" :=
          Complete
            (JObj [("meta", JObj [("lang", JStr "tgl"); ("definition_lang", JStr "eng")]);
                   ("entries", JArr [])]) ]}, Ok ()) /\
  ~ (exists files' r,
       main Dictionary Samples.text_of Samples.opens Samples.dumps ∅ [Samples.batch_empty]
         = (files', r) /\
       files' !! "dictionary_tgl_eng.json" = None).
Proof.
  split; [reflexivity|]. split; [reflexivity|].
  intros (files' & r & Hmain & Hnone).
  change ((<["dictionary_tgl_eng.json" :=
              Complete
                (JObj [("meta", JObj [("lang", JStr "tgl"); ("definition_lang", JStr "eng")]);
                       ("entries", JArr [])])]> (∅ : gmap string content), Ok ())
          = (files', r)) in Hmain.
  injection Hmain as <- <-. by rewrite lookup_insert_eq in Hnone.
Qed.

(** C9 (re-run).  A run that is repeated over the same loaded files, in the
    same order, on the directory the first run left, leaves every file as it
    is; and from whatever directory a run starts, it writes the same
    documents under the same names and leaves the other files alone. *)
Theorem rerun_identical (dom : domain) (py_str : json -> string)
    (open_raises : string -> option exn) (dump_raises : json -> option exn)
    (files files1 : gmap string content) (parsed : list json) :
  main dom py_str open_raises dump_raises files parsed = (files1, Ok ()) ->
  main dom py_str open_raises dump_raises files1 parsed = (files1, Ok ()) /\
  forall files', exists files2,
    main dom py_str open_raises dump_raises files' parsed = (files2, Ok ()) /\
    forall name, files2 !! name = files1 !! name \/
                 (files2 !! name = files' !! name /\ files1 !! name = files !! name).
Proof.
  rewrite !main_generic. intros H.
  destruct (collect dom py_str parsed) as [m|e] eqn:Hm; [|discriminate H].
  pose proof (collect_NoDup dom py_str parsed m Hm) as Hnd.
  assert (Hw : Forall (writable open_raises dump_raises) m).
  { apply (write_groups_Ok_iff open_raises dump_raises files). eauto. }
  assert (Hany : forall files', exists files2,
            write_groups open_raises dump_raises files' m = (files2, Ok ()) /\
            forall name, files2 !! name = files1 !! name \/
              (files2 !! name = files' !! name /\ files1 !! name = files !! name)).
  { intros files'.
    destruct (proj2 (write_groups_Ok_iff open_raises dump_raises files' m) Hw)
      as [files2 H2].
    exists files2. split; [done|]. intros name.
    rewrite (write_groups_Ok_lookup _ _ _ _ _ name Hnd H2),
            (write_groups_Ok_lookup _ _ _ _ _ name Hnd H).
    destruct (md_get name m); auto. }
  split.
  - destruct (Hany files1) as (files2 & H2 & _). rewrite H2. f_equal.
    apply map_eq. intros name.
    rewrite (write_groups_Ok_lookup _ _ _ _ _ name Hnd H2),
            (write_groups_Ok_lookup _ _ _ _ _ name Hnd H).
    by destruct (md_get name m).
  - intros files'. rewrite main_generic, Hm. apply Hany.
Qed.

Lemma rerun_identical_witness :
  main Dictionary Samples.text_of Samples.opens Samples.dumps
    {[ "dictionary_tgl_eng.json" := Complete (group_json (Group
         [("lang", JStr "tgl"); ("definition_lang", JStr "eng")]
         [Samples.aso_S1; Samples.aso_S3; Samples.pusa_S2])) ]}
    [Samples.batch_A; Samples.batch_C]
  = ({[ "dictionary_tgl_eng.json" := Complete (group_json (Group
         [("lang", JStr "tgl"); ("definition_lang", JStr "eng")]
         [Samples.aso_S1; Samples.aso_S3; Samples.pusa_S2])) ]}, Ok ()).
Proof.
  apply (rerun_identical Dictionary Samples.text_of Samples.opens Samples.dumps ∅ _
           [Samples.batch_A; Samples.batch_C]).
  reflexivity.
Defined.

(** ** Default inheritance of [source_title] and [source_link] *)

(** Translations inherit both fields from the batch meta, and a meta that
    lacks them is no error. *)
Lemma translation_inheritance (fields mfields : odict) :
  exists out,
    Phrasebooks.ensure_ordered_translation (JObj fields) (JObj mfields) = Ok (JObj out) /\
    od_get "source_title" out = surviving (inherited fields mfields "source_title") /\
    od_get "source_link" out = surviving (inherited fields mfields "source_link") /\
    od_get "content" out = surviving (get_or fields "content" JNull) /\
    od_get "examples" out = surviving (get_or fields "examples" JNull).
Proof.
  rewrite ensure_ordered_translation_obj. simpl. eexists. split; [reflexivity|].
  rewrite !kept_lookup by apply translation_data_NoDup. done.
Qed.

(** Definitions inherit both fields when the batch meta has a
    [source_title]. *)
Lemma definition_inheritance (fields mfields : odict) (title : json) :
  od_get "source_title" mfields = Some title ->
  exists out,
    Dictionaries.ensure_ordered_definition (JObj fields) (JObj mfields) = Ok (JObj out) /\
    od_get "source_title" out = surviving (inherited fields mfields "source_title") /\
    od_get "source_link" out = surviving (inherited fields mfields "source_link") /\
    od_get "description" out = surviving (get_or fields "description" JNull).
Proof.
  intros Ht. rewrite ensure_ordered_definition_obj. simpl. rewrite Ht. simpl.
  eexists. split; [reflexivity|].
  rewrite !kept_lookup by apply definition_data_NoDup.
  unfold inherited, get_or. simpl. by rewrite Ht.
Qed.

(** [meta["source_title"]] is evaluated for every definition, before
    [definition.get] is called: a batch meta without [source_title] makes
    every definition raise, with or without a [source_title] of its own. *)
Lemma definition_meta_title_missing (fields mfields : odict) :
  od_get "source_title" mfields = None ->
  Dictionaries.ensure_ordered_definition (JObj fields) (JObj mfields)
    = Err (KeyError "source_title").
Proof.
  intros Ht. rewrite ensure_ordered_definition_obj. simpl. by rewrite Ht.
Qed.

(** C1, where the code departs from it.  On the second batch of the
    scenario of the specification, whose meta has no [source_title], the
    definition raises [KeyError] although it carries its own [source_title];
    so does a definition that omits it; and the run over the two batches of
    the scenario ends with that error.  The translation normaliser, which
    reads the meta with [get], emits the record on the same input. *)
Theorem dictionary_meta_title_required :
  Dictionaries.ensure_ordered_definition Samples.def_cat Samples.meta_bare
    = Err (KeyError "source_title") /\
  Dictionaries.ensure_ordered_definition Samples.def_dog Samples.meta_bare
    = Err (KeyError "source_title") /\
  collect Dictionary Samples.text_of [Samples.batch_A; Samples.batch_B]
    = Err (KeyError "source_title") /\
  Phrasebooks.ensure_ordered_translation
    (JObj [("content", JStr "cat"); ("source_title", JStr "S2")])
    (JObj [("lang", JStr "tgl"); ("translation_lang", JStr "eng")])
    = Ok (JObj [("content", JStr "cat"); ("source_title", JStr "S2")]).
Proof. repeat split; reflexivity. Qed.

(** * Further properties of the collectors *)

(** ** Error behaviour of the normalisers *)

(** A phrasebook entry without a [translations] key, or with [None] for
    it, raises [TypeError]: [entry.get("translations")] is [None], which the
    list comprehension cannot iterate.  (The dictionary normaliser reads
    [definitions] with the default [[]] instead.) *)
Theorem phrasebook_missing_translations (fields : odict) (meta : json) :
  od_get "translations" fields = None \/ od_get "translations" fields = Some JNull ->
  Phrasebooks.ensure_ordered_entry (JObj fields) meta = Err TypeError.
Proof.
  intros H. rewrite phrasebook_entry_obj. unfold get_or.
  by destruct H as [-> | ->].
Qed.

Lemma phrasebook_missing_translations_witness :
  Phrasebooks.ensure_ordered_entry (JObj [("phrase", JStr "salamat")]) Samples.meta_bare
    = Err TypeError.
Proof.
  apply (phrasebook_missing_translations [("phrase", JStr "salamat")] Samples.meta_bare).
  left. reflexivity.
Defined.

(** A raw record that is not a mapping makes each of the four normalisers
    raise [AttributeError], whatever the meta. *)
Theorem non_mapping_record_raises (kind : record_kind) (raw meta : json) :
  (forall fields, raw <> JObj fields) ->
  normalise kind raw meta = Err AttributeError.
Proof.
  intros H. destruct raw; try (by destruct kind). by destruct (H fields).
Qed.

Lemma non_mapping_record_raises_witness :
  normalise PhrasebookTranslation (JArr [JStr "kumusta"]) Samples.meta_bare
    = Err AttributeError.
Proof.
  apply (non_mapping_record_raises PhrasebookTranslation (JArr [JStr "kumusta"])
           Samples.meta_bare).
  intros fields. discriminate.
Defined.

(** A mapping among the nested sub-records is required too: an entry whose
    [definitions] (or [translations]) holds a value that is not a mapping
    raises [AttributeError] when the sub-records before it normalise. *)
Theorem nested_non_mapping_raises (fields : odict) (meta : json)
    (good : list json) (bad : json) (rest : list json) (emitted : list json) :
  od_get "definitions" fields = Some (JArr (good ++ bad :: rest)) ->
  mapM (fun d => Dictionaries.ensure_ordered_definition d meta) good = Ok emitted ->
  (forall fs, bad <> JObj fs) ->
  Dictionaries.ensure_ordered_entry (JObj fields) meta = Err AttributeError.
Proof.
  intros Hd Hgood Hbad. rewrite dictionary_entry_obj. unfold get_or. rewrite Hd. simpl.
  assert (Hm : mapM (fun d => Dictionaries.ensure_ordered_definition d meta)
                 (good ++ bad :: rest) = Err AttributeError).
  { clear Hd. revert emitted Hgood. induction good as [|d good IH]; intros emitted Hgood; simpl.
    - by rewrite (ensure_ordered_definition_not_obj bad meta Hbad).
    - simpl in Hgood. bind_inv Hgood. bind_inv Hgood. rewrite Hx. simpl.
      by rewrite (IH x0 Hx0). }
  by rewrite Hm.
Qed.

Lemma nested_non_mapping_raises_witness :
  Dictionaries.ensure_ordered_entry
    (JObj [("word", JStr "aso"); ("definitions", JArr [Samples.def_dog; JStr "hound"])])
    Samples.meta_S1 = Err AttributeError.
Proof.
  apply (nested_non_mapping_raises
           [("word", JStr "aso"); ("definitions", JArr [Samples.def_dog; JStr "hound"])]
           Samples.meta_S1 [Samples.def_dog] (JStr "hound") []
           [JObj [("description", JStr "dog"); ("source_title", JStr "S1")]]).
  - reflexivity.
  - reflexivity.
  - intros fs. discriminate.
Defined.

(** ** Where the values of a sub-record come from *)

Lemma sub_record_Ok (kind : record_kind) (fields mfields : odict) (r : json) :
  sub_record kind ->
  normalise kind (JObj fields) (JObj mfields) = Ok r ->
  exists data title link,
    r = JObj (kept data) /\ NoDup (keys data) /\
    (title = get_or mfields "source_title" JNull) /\
    (link = get_or mfields "source_link" JNull) /\
    (kind = DictionaryDefinition -> od_get "source_title" mfields = Some title) /\
    data = match kind with
           | DictionaryDefinition => definition_data fields title link
           | _ => translation_data fields title link
           end.
Proof.
  intros [-> | ->] H; simpl in H.
  - rewrite ensure_ordered_definition_obj in H. simpl in H.
    destruct (od_get "source_title" mfields) as [title|] eqn:Ht; simpl in H; [|done].
    injection H as <-. eexists _, title, _. split; [reflexivity|].
    split; [apply definition_data_NoDup|]. unfold get_or. rewrite Ht. done.
  - rewrite ensure_ordered_translation_obj in H. simpl in H. injection H as <-.
    eexists _, _, _. split; [reflexivity|].
    split; [apply translation_data_NoDup|]. done.
Qed.

(** The normalisers of definitions and translations never alter or invent
    a value: every value of the emitted record is the raw sub-record's value
    for that key, or, for [source_title] and [source_link] only and when the
    sub-record has no such key, the batch meta's value for it. *)
Theorem sub_record_values_pass_through (kind : record_kind)
    (fields mfields out : odict) (k : string) (v : json) :
  sub_record kind ->
  normalise kind (JObj fields) (JObj mfields) = Ok (JObj out) ->
  (k, v) ∈ out ->
  od_get k fields = Some v \/
  (od_get k fields = None /\ source_field k /\ od_get k mfields = Some v).
Proof.
  intros Hkind H Hin.
  destruct (sub_record_Ok kind fields mfields _ Hkind H)
    as (data & title & link & [= ->] & _ & -> & -> & _ & ->).
  apply list_elem_of_In, filter_In in Hin as [Hin Hv].
  apply negb_true_iff in Hv. unfold source_field.
  destruct Hkind as [-> | ->]; simpl in Hin;
    repeat (destruct Hin as [[= <- <-]|Hin]); try done;
    unfold get_or in *;
    repeat match goal with
    | |- context [od_get ?key fields] => destruct (od_get key fields) eqn:?
    | |- context [od_get ?key mfields] => destruct (od_get key mfields) eqn:?
    end; simpl in Hv; try discriminate; auto.
Qed.

Lemma sub_record_values_pass_through_witness :
  od_get "source_title" [("description", JStr "dog")] = None /\
  source_field "source_title" /\
  od_get "source_title"
    [("lang", JStr "tgl"); ("definition_lang", JStr "eng"); ("source_title", JStr "S1")]
    = Some (JStr "S1").
Proof.
  destruct (sub_record_values_pass_through DictionaryDefinition
              [("description", JStr "dog")]
              [("lang", JStr "tgl"); ("definition_lang", JStr "eng");
               ("source_title", JStr "S1")]
              [("description", JStr "dog"); ("source_title", JStr "S1")]
              "source_title" (JStr "S1")) as [H|H].
  - left. reflexivity.
  - reflexivity.
  - apply elem_of_cons. right. apply elem_of_cons. left. reflexivity.
  - discriminate H.
  - exact H.
Defined.

(** A sub-record that carries [source_title] (or [source_link]) with an
    empty value ([None], [""] or [[]]) does not inherit: its own value is
    used and pruned, so the field is absent from the emitted record even
    when the batch meta has one. *)
Theorem explicit_empty_blocks_inheritance (kind : record_kind)
    (fields mfields : odict) (r : json) (k : string) (v : json) :
  sub_record kind ->
  source_field k ->
  od_get k fields = Some v ->
  py_in_empties v = true ->
  normalise kind (JObj fields) (JObj mfields) = Ok r ->
  exists out, r = JObj out /\ od_get k out = None.
Proof.
  intros Hkind Hk Hget Hv H.
  destruct (sub_record_Ok kind fields mfields _ Hkind H)
    as (data & title & link & -> & Hnd & _ & _ & _ & ->).
  eexists. split; [reflexivity|]. rewrite kept_lookup by done.
  destruct Hkind as [-> | ->]; destruct Hk as [-> | ->]; simpl;
    unfold get_or; rewrite Hget, Hv; done.
Qed.

Lemma explicit_empty_blocks_inheritance_witness :
  exists out,
    JObj [("content", JStr "aso")] = JObj out /\ od_get "source_title" out = None.
Proof.
  apply (explicit_empty_blocks_inheritance PhrasebookTranslation
           [("content", JStr "aso"); ("source_title", JNull)]
           [("lang", JStr "tgl"); ("translation_lang", JStr "eng");
            ("source_title", JStr "S1")]
           (JObj [("content", JStr "aso")]) "source_title" JNull).
  - right. reflexivity.
  - left. reflexivity.
  - reflexivity.
  - reflexivity.
  - reflexivity.
Defined.

(** ** Normalising twice *)

Lemma kept_kept (data : odict) : kept (kept data) = kept data.
Proof.
  unfold kept. induction data as [|[k v] data IH]; simpl; [done|].
  destruct (negb (py_in_empties v)) eqn:Hv; simpl; [rewrite Hv; f_equal|]; done.
Qed.

(** Pruning a pruned dictionary changes nothing (either copy of
    [filter_empty_fields]). *)
Theorem filter_empty_fields_idempotent (data : odict) :
  NoDup (keys data) ->
  Dictionaries.filter_empty_fields (Dictionaries.filter_empty_fields data)
    = Dictionaries.filter_empty_fields data /\
  Phrasebooks.filter_empty_fields (Phrasebooks.filter_empty_fields data)
    = Phrasebooks.filter_empty_fields data.
Proof.
  intros Hnd. rewrite filter_empty_fields_eq.
  rewrite (filter_empty_fields_kept data Hnd).
  rewrite (filter_empty_fields_kept (kept data) (kept_keys_NoDup data Hnd)).
  by rewrite kept_kept.
Qed.

Lemma filter_empty_fields_idempotent_witness :
  Dictionaries.filter_empty_fields
    (Dictionaries.filter_empty_fields [("word", JStr "aso"); ("definitions", JArr [])])
  = Dictionaries.filter_empty_fields [("word", JStr "aso"); ("definitions", JArr [])].
Proof.
  apply (filter_empty_fields_idempotent [("word", JStr "aso"); ("definitions", JArr [])]).
  distinct_keys.
Defined.

(** Records with the same keys whose values survive pruning alike are
    pruned to the same record. *)
Lemma kept_ext (data data' : odict) :
  Forall2 (fun kv kv' => kv.1 = kv'.1 /\ surviving kv.2 = surviving kv'.2) data data' ->
  kept data = kept data'.
Proof.
  unfold kept, surviving.
  induction 1 as [|[k v] [k' v'] data data' [Hk Hv] _ IH]; simpl in *; [done|].
  subst k'. destruct (py_in_empties v), (py_in_empties v'); simpl; congruence.
Qed.

Lemma get_or_kept (data : odict) (k : string) (x dflt : json) :
  NoDup (keys data) ->
  od_get k data = Some x ->
  (py_in_empties x = true -> py_in_empties dflt = true) ->
  surviving (get_or (kept data) k dflt) = surviving x.
Proof.
  intros Hnd Hk Hd. unfold get_or. rewrite kept_lookup, Hk by done. unfold surviving.
  destruct (py_in_empties x) eqn:Hx; [by rewrite Hd | by rewrite Hx].
Qed.

Lemma own_or_default_empty (fields : odict) (k : string) (dflt : json) :
  (forall v, od_get k fields = Some v -> py_in_empties v = false) ->
  py_in_empties (get_or fields k dflt) = true -> py_in_empties dflt = true.
Proof.
  unfold get_or. intros Hown. destruct (od_get k fields) as [v|]; [|done].
  rewrite (Hown v eq_refl). discriminate.
Qed.

(** Re-normalising an emitted definition or translation against the same
    meta gives the same record again, provided the raw sub-record did not
    carry an empty [source_title] or [source_link] of its own (such a field
    is pruned by the first pass and inherited by the second). *)
Theorem sub_record_renormalise (kind : record_kind) (fields mfields : odict) (r : json) :
  sub_record kind ->
  (forall k v, source_field k -> od_get k fields = Some v -> py_in_empties v = false) ->
  normalise kind (JObj fields) (JObj mfields) = Ok r ->
  normalise kind r (JObj mfields) = Ok r.
Proof.
  intros Hkind Hown H.
  destruct (sub_record_Ok kind fields mfields _ Hkind H)
    as (data & title & link & -> & Hnd & Ht & Hl & Hdt & ->).
  pose proof (own_or_default_empty fields "source_title" title
                (fun v => Hown "source_title" v (or_introl eq_refl))) as Htitle.
  pose proof (own_or_default_empty fields "source_link" link
                (fun v => Hown "source_link" v (or_intror eq_refl))) as Hlink.
  destruct Hkind as [-> | ->]; simpl.
  - rewrite ensure_ordered_definition_obj. simpl.
    rewrite (Hdt eq_refl). simpl.
    fold (get_or mfields "source_link" JNull). rewrite <- Hl.
    do 2 f_equal. apply kept_ext.
    repeat constructor; simpl;
      (apply get_or_kept; [done | reflexivity | done]).
  - rewrite ensure_ordered_translation_obj. simpl.
    fold (get_or mfields "source_title" JNull).
    fold (get_or mfields "source_link" JNull). rewrite <- Ht, <- Hl.
    do 2 f_equal. apply kept_ext.
    repeat constructor; simpl;
      (apply get_or_kept; [done | reflexivity | done]).
Qed.

Lemma sub_record_renormalise_witness :
  normalise DictionaryDefinition
    (JObj [("description", JStr "dog"); ("source_title", JStr "S1")]) Samples.meta_S1
  = Ok (JObj [("description", JStr "dog"); ("source_title", JStr "S1")]).
Proof.
  apply (sub_record_renormalise DictionaryDefinition
           [("description", JStr "dog")]
           [("lang", JStr "tgl"); ("definition_lang", JStr "eng");
            ("source_title", JStr "S1")]).
  - left. reflexivity.
  - intros k v [-> | ->]; discriminate.
  - reflexivity.
Defined.

(** ** The result of a run, file by file *)

Lemma merge_step_lookup (k k' : string) (meta : odict) (new : list json) (m : merged) :
  md_get k' (merge_step k meta new m) =
    if String.eqb k k' then Some (Group meta (entries_of k m ++ new)) else md_get k' m.
Proof.
  unfold merge_step, entries_of. rewrite !md_get_update.
  destruct (String.eqb_spec k k') as [->|Hne]; [|done].
  by rewrite String.eqb_refl.
Qed.

Lemma md_get_is_Some_keys (k : string) (m : merged) :
  k ∈ m.*1 <-> is_Some (md_get k m).
Proof.
  destruct (md_get k m) as [g|] eqn:Hg.
  - split; [eauto|]. intros _. destruct (decide (k ∈ m.*1)) as [|Hn]; [done|].
    apply md_get_None_keys in Hn. congruence.
  - split; [|by intros [? ?]]. by apply md_get_None_keys in Hg.
Qed.

Lemma merge_step_NoDup (k : string) (meta : odict) (new : list json) (m : merged) :
  NoDup m.*1 -> NoDup (merge_step k meta new m).*1.
Proof. intros Hnd. by do 2 apply md_update_NoDup. Qed.

Section Run.
Variable dom : domain.
Variable py_str : json -> string.

Let merge_file :=
  Aggregator.merge_file (prefix_of dom) (second_key_of dom) (normalise_entry dom) py_str.

Lemma group_meta_of_key (data : json) (k : string) :
  group_key dom py_str data = Ok k ->
  exists lang second,
    group_meta_of dom data = Ok [("lang", lang); (second_key_of dom, second)].
Proof.
  unfold group_key, group_meta_of. intros H. do 3 bind_inv H.
  rewrite Hx. simpl. rewrite Hx0. simpl. rewrite Hx1. simpl. eauto.
Qed.

(** Merging a file succeeds exactly when the file has a group key and its
    entries normalise, and then it is [merge_step]. *)
Lemma merge_file_step (m : merged) (data : json) (k : string) (meta : odict)
    (new : list json) :
  group_key dom py_str data = Ok k ->
  group_meta_of dom data = Ok meta ->
  normalised_entries dom data = Ok new ->
  merge_file m data = Ok (merge_step k meta new m).
Proof.
  subst merge_file.
  unfold group_key, group_meta_of, normalised_entries,
    Aggregator.merge_file, Aggregator.contribution, Aggregator.filename_of.
  intros Hk Hm Hn. do 3 bind_inv Hk. injection Hk as <-.
  rewrite Hx in Hm, Hn |- *. simpl in *. rewrite Hx0, Hx1 in Hm |- *. simpl in *.
  injection Hm as <-. do 2 bind_inv Hn. rewrite Hx2. simpl. rewrite Hx3. simpl.
  rewrite Hn. simpl. by destruct dom.
Qed.

Lemma merge_file_inv (m m' : merged) (data : json) :
  merge_file m data = Ok m' ->
  exists k meta new,
    group_key dom py_str data = Ok k /\
    group_meta_of dom data = Ok meta /\
    normalised_entries dom data = Ok new /\
    m' = merge_step k meta new m.
Proof.
  intros H.
  destruct (merge_file_Ok dom py_str m m' data H) as (k & new & Hk & Hn & _).
  destruct (group_meta_of_key data k Hk) as (lang & second & Hm).
  exists k, [("lang", lang); (second_key_of dom, second)], new.
  repeat split; try done.
  rewrite (merge_file_step m data k _ new Hk Hm Hn) in H. by injection H.
Qed.

Lemma merge_file_fails (m : merged) (data : json) (e : exn) :
  group_key dom py_str data = Err e \/ normalised_entries dom data = Err e ->
  exists e', merge_file m data = Err e'.
Proof.
  intros H. destruct (merge_file m data) as [m'|e'] eqn:Hm; [|eauto].
  destruct (merge_file_inv m m' data Hm) as (k & meta & new & Hk & _ & Hn & _).
  destruct H as [H|H]; congruence.
Qed.

Lemma foldlM_merge_entries (parsed : list json) (m0 m : merged) (k : string) :
  foldlM merge_file m0 parsed = Ok m ->
  entries_of k m = entries_of k m0 ++ flat_map (entries_under dom py_str k) parsed.
Proof.
  revert m0. induction parsed as [|data parsed IH]; intros m0 H; simpl in H.
  - injection H as <-. simpl. by rewrite app_nil_r.
  - bind_inv H.
    destruct (merge_file_inv m0 x data Hx) as (k1 & meta & new & Hk & _ & Hn & ->).
    rewrite (IH _ H). simpl. rewrite app_assoc. f_equal.
    unfold entries_under. rewrite Hk, Hn.
    unfold entries_of at 1. rewrite merge_step_lookup.
    destruct (String.eqb k1 k) eqn:Hkk; simpl.
    + apply String.eqb_eq in Hkk as ->. done.
    + by rewrite app_nil_r.
Qed.

Lemma foldlM_merge_keys (parsed : list json) (m0 m : merged) (k : string) :
  foldlM merge_file m0 parsed = Ok m ->
  k ∈ m.*1 <-> k ∈ m0.*1 \/ exists data, data ∈ parsed /\ group_key dom py_str data = Ok k.
Proof.
  revert m0. induction parsed as [|data parsed IH]; intros m0 H; simpl in H.
  - injection H as <-. split; [auto|]. intros [?|(d & Hd & _)]; [done|].
    by apply elem_of_nil in Hd.
  - bind_inv H.
    destruct (merge_file_inv m0 x data Hx) as (k1 & meta & new & Hk & _ & Hn & ->).
    rewrite (IH _ H).
    assert (Hstep : k ∈ (merge_step k1 meta new m0).*1 <-> k1 = k \/ k ∈ m0.*1).
    { rewrite !md_get_is_Some_keys, merge_step_lookup.
      destruct (String.eqb_spec k1 k) as [->|Hne].
      - split; [auto | eauto].
      - split; [auto | by intros [?|?]]. }
    rewrite Hstep. split.
    + intros [[->|?]|(d & Hd & Hdk)]; [right|by left|right].
      * exists data. split; [apply elem_of_cons; auto | done].
      * exists d. split; [apply elem_of_cons; auto | done].
    + intros [?|(d & Hd & Hdk)]; [by left; right|].
      apply elem_of_cons in Hd as [->|Hd].
      * left; left. congruence.
      * right. eauto.
Qed.

(** Files merged under other keys leave the group of [k] as it is. *)
Lemma foldlM_merge_other (parsed : list json) (m0 m : merged) (k : string) :
  foldlM merge_file m0 parsed = Ok m ->
  (forall data, data ∈ parsed -> group_key dom py_str data <> Ok k) ->
  md_get k m = md_get k m0.
Proof.
  revert m0. induction parsed as [|data parsed IH]; intros m0 H Hno; simpl in H.
  - by injection H as <-.
  - bind_inv H.
    destruct (merge_file_inv m0 x data Hx) as (k1 & meta & new & Hk & _ & Hn & ->).
    rewrite (IH _ H) by (intros d Hd; apply Hno, elem_of_cons; auto).
    rewrite merge_step_lookup.
    destruct (String.eqb_spec k1 k) as [->|Hne]; [|done].
    destruct (Hno data); [apply elem_of_cons; auto | done].
Qed.
End Run.

Lemma foldlM_merge_meta (dom : domain) (py_str : json -> string)
    (parsed : list json) (m0 m : merged) (k : string) (g : group) :
  foldlM (Aggregator.merge_file (prefix_of dom) (second_key_of dom)
            (normalise_entry dom) py_str) m0 parsed = Ok m ->
  md_get k m = Some g ->
  (exists g0, md_get k m0 = Some g0 /\ g_meta g0 = g_meta g) \/
  exists data, data ∈ parsed /\ group_key dom py_str data = Ok k /\
               group_meta_of dom data = Ok (g_meta g).
Proof.
  revert m0. induction parsed as [|data parsed IH]; intros m0 H Hg; simpl in H.
  - injection H as <-. left. eauto.
  - bind_inv H.
    destruct (merge_file_inv dom py_str m0 x data Hx)
      as (k1 & meta & new & Hk & Hm & Hn & ->).
    destruct (IH _ H Hg) as [(g0 & Hg0 & Hmeta)|(d & Hd & Hdk & Hdm)].
    + rewrite merge_step_lookup in Hg0.
      destruct (String.eqb_spec k1 k) as [->|Hne].
      * injection Hg0 as <-. simpl in Hmeta. subst meta.
        right. exists data. split; [apply elem_of_cons; auto | done].
      * left. eauto.
    + right. exists d. split; [apply elem_of_cons; auto | done].
Qed.

Lemma collect_entries (dom : domain) (py_str : json -> string)
    (parsed : list json) (m : merged) (k : string) (g : group) :
  collect dom py_str parsed = Ok m ->
  md_get k m = Some g ->
  g_entries g = flat_map (entries_under dom py_str k) parsed.
Proof.
  rewrite collect_generic. intros H Hg.
  pose proof (foldlM_merge_entries dom py_str parsed [] m k H) as He.
  unfold entries_of in He. by rewrite Hg in He.
Qed.

Lemma collect_keys (dom : domain) (py_str : json -> string)
    (parsed : list json) (m : merged) (k : string) :
  collect dom py_str parsed = Ok m ->
  k ∈ m.*1 <-> exists data, data ∈ parsed /\ group_key dom py_str data = Ok k.
Proof.
  rewrite collect_generic. intros H.
  rewrite (foldlM_merge_keys dom py_str parsed [] m k H).
  split; [intros [Hk|?]; [by apply elem_of_nil in Hk | done] | auto].
Qed.

(** The entry list of a group is the concatenation, in processing order,
    of the normalised entries of every file merged under its key: nothing
    else is added, nothing is dropped, merged or reordered. *)
Theorem group_entries_are_concatenation (dom : domain) (py_str : json -> string)
    (parsed : list json) (m : merged) (k : string) (g : group) :
  collect dom py_str parsed = Ok m ->
  md_get k m = Some g ->
  g_entries g = flat_map (entries_under dom py_str k) parsed.
Proof.
  rewrite collect_generic. intros H Hg.
  pose proof (foldlM_merge_entries dom py_str parsed [] m k H) as He.
  unfold entries_of in He. by rewrite Hg in He.
Qed.

Lemma group_entries_are_concatenation_witness :
  [Samples.aso_S1; Samples.aso_S3; Samples.pusa_S2] =
  flat_map (entries_under Dictionary Samples.text_of "dictionary_tgl_eng.json")
    [Samples.batch_A; Samples.batch_C].
Proof.
  apply (group_entries_are_concatenation Dictionary Samples.text_of
           [Samples.batch_A; Samples.batch_C]
           [("dictionary_tgl_eng.json",
             Group [("lang", JStr "tgl"); ("definition_lang", JStr "eng")]
                   [Samples.aso_S1; Samples.aso_S3; Samples.pusa_S2])]
           "dictionary_tgl_eng.json"
           (Group [("lang", JStr "tgl"); ("definition_lang", JStr "eng")]
                  [Samples.aso_S1; Samples.aso_S3; Samples.pusa_S2])).
  - reflexivity.
  - reflexivity.
Defined.

(** The groups of a run are exactly the keys of the files it read, each
    once: no group is made for a key no file has, none is missing. *)
Theorem groups_are_keys_seen (dom : domain) (py_str : json -> string)
    (parsed : list json) (m : merged) :
  collect dom py_str parsed = Ok m ->
  NoDup m.*1 /\
  forall k, k ∈ m.*1 <->
            exists data, data ∈ parsed /\ group_key dom py_str data = Ok k.
Proof.
  intros H. split; [by eapply collect_NoDup|].
  intros k. by apply collect_keys.
Qed.

Lemma groups_are_keys_seen_witness :
  NoDup ["dictionary_tgl_eng.json"] /\
  forall k, k ∈ ["dictionary_tgl_eng.json"] <->
            exists data, data ∈ [Samples.batch_A; Samples.batch_C] /\
                         group_key Dictionary Samples.text_of data = Ok k.
Proof.
  apply (groups_are_keys_seen Dictionary Samples.text_of
           [Samples.batch_A; Samples.batch_C]
           [("dictionary_tgl_eng.json",
             Group [("lang", JStr "tgl"); ("definition_lang", JStr "eng")]
                   [Samples.aso_S1; Samples.aso_S3; Samples.pusa_S2])]).
  reflexivity.
Defined.

(** The meta of a group is the two language codes of the last file merged
    under its key, [lang] first: the titles, links and other meta fields of
    the files never reach the group meta. *)
Theorem group_meta_last_writer (dom : domain) (py_str : json -> string)
    (pre post : list json) (data : json) (m : merged) (k : string) :
  collect dom py_str (pre ++ data :: post) = Ok m ->
  group_key dom py_str data = Ok k ->
  (forall d, d ∈ post -> group_key dom py_str d <> Ok k) ->
  exists g lang second,
    md_get k m = Some g /\
    g_meta g = [("lang", lang); (second_key_of dom, second)] /\
    group_meta_of dom data = Ok (g_meta g).
Proof.
  rewrite collect_generic. intros H Hk Hpost.
  rewrite foldlM_app in H. bind_inv H. simpl in H. bind_inv H.
  destruct (merge_file_inv dom py_str x x0 data Hx0)
    as (k1 & meta & new & Hk1 & Hm & Hn & ->).
  assert (k1 = k) as -> by congruence.
  destruct (group_meta_of_key dom py_str data k Hk) as (lang & second & Hm').
  rewrite Hm' in Hm. injection Hm as <-.
  pose proof (foldlM_merge_other dom py_str post _ m k H Hpost) as Hg.
  rewrite merge_step_lookup, String.eqb_refl in Hg.
  eexists _, lang, second. split; [exact Hg|]. split; [reflexivity|exact Hm'].
Qed.

Lemma group_meta_last_writer_witness :
  exists g lang second,
    md_get "dictionary_tgl_eng.json"
      [("dictionary_tgl_eng.json",
        Group [("lang", JStr "tgl"); ("definition_lang", JStr "eng")]
              [Samples.aso_S1; Samples.aso_S3; Samples.pusa_S2])] = Some g /\
    g_meta g = [("lang", lang); (second_key_of Dictionary, second)] /\
    group_meta_of Dictionary Samples.batch_C = Ok (g_meta g).
Proof.
  apply (group_meta_last_writer Dictionary Samples.text_of [Samples.batch_A] []
           Samples.batch_C _ "dictionary_tgl_eng.json").
  - reflexivity.
  - reflexivity.
  - intros d Hd. by apply elem_of_nil in Hd.
Defined.

(** What a run that ends without error leaves in the output directory.  A
    file whose name is the key of no file read is left as it was.  Every
    other name holds, whole, a document with exactly the keys [meta] and
    [entries], in that order: the group meta of a file of that key, and the
    concatenated normalised entries of all files of that key. *)
Theorem output_directory (dom : domain) (py_str : json -> string)
    (open_raises : string -> option exn) (dump_raises : json -> option exn)
    (files files' : gmap string content) (parsed : list json) (name : string) :
  main dom py_str open_raises dump_raises files parsed = (files', Ok ()) ->
  ((forall data, data ∈ parsed -> group_key dom py_str data <> Ok name) /\
   files' !! name = files !! name) \/
  (exists data meta,
     data ∈ parsed /\ group_key dom py_str data = Ok name /\
     group_meta_of dom data = Ok meta /\
     files' !! name =
       Some (Complete
               (JObj [("meta", JObj meta);
                      ("entries",
                       JArr (flat_map (entries_under dom py_str name) parsed))]))).
Proof.
  rewrite main_generic. intros H.
  destruct (collect dom py_str parsed) as [x|e] eqn:Hx; [|discriminate H].
  pose proof (collect_NoDup dom py_str parsed x Hx) as Hnd.
  rewrite (write_groups_Ok_lookup _ _ _ _ _ name Hnd H).
  destruct (md_get name x) as [g|] eqn:Hg.
  - right.
    pose proof (collect_entries dom py_str parsed x name g Hx Hg) as He.
    rewrite collect_generic in Hx.
    destruct (foldlM_merge_meta dom py_str parsed [] x name g Hx Hg)
      as [(g0 & Hg0 & _)|(data & Hd & Hk & Hm)]; [discriminate Hg0|].
    exists data, (g_meta g). repeat split; try done.
    unfold group_json. by rewrite He.
  - left. split; [|done]. intros data Hd Hk.
    apply md_get_None_keys in Hg. apply Hg.
    apply (collect_keys dom py_str parsed x name Hx). eauto.
Qed.

Lemma output_directory_witness :
  ((forall data, data ∈ [Samples.batch_A] ->
      group_key Dictionary Samples.text_of data <> Ok "dictionary_tgl_eng.json") /\
   ({[ "dictionary_tgl_eng.json" := Complete (group_json (Group
         [("lang", JStr "tgl"); ("definition_lang", JStr "eng")] [Samples.aso_S1])) ]}
      : gmap string content) !! "dictionary_tgl_eng.json"
     = (∅ : gmap string content) !! "dictionary_tgl_eng.json") \/
  (exists data meta,
     data ∈ [Samples.batch_A] /\
     group_key Dictionary Samples.text_of data = Ok "dictionary_tgl_eng.json" /\
     group_meta_of Dictionary data = Ok meta /\
     ({[ "dictionary_tgl_eng.json" := Complete (group_json (Group
           [("lang", JStr "tgl"); ("definition_lang", JStr "eng")] [Samples.aso_S1])) ]}
        : gmap string content) !! "dictionary_tgl_eng.json" =
       Some (Complete
               (JObj [("meta", JObj meta);
                      ("entries",
                       JArr (flat_map (entries_under Dictionary Samples.text_of
                                         "dictionary_tgl_eng.json")
                               [Samples.batch_A]))]))).
Proof.
  apply (output_directory Dictionary Samples.text_of Samples.opens Samples.dumps
           ∅ _ [Samples.batch_A] "dictionary_tgl_eng.json").
  reflexivity.
Defined.

Lemma collect_succeeds_iff (dom : domain) (py_str : json -> string) (parsed : list json) :
  (exists m, collect dom py_str parsed = Ok m) <->
  Forall (fun data =>
            (exists k, group_key dom py_str data = Ok k) /\
            (exists new, normalised_entries dom data = Ok new)) parsed.
Proof.
  rewrite collect_generic. generalize (@nil (string * group)) as m0.
  induction parsed as [|data parsed IH]; intros m0; simpl.
  - split; [constructor | eauto].
  - split.
    + intros [m H]. bind_inv H.
      destruct (merge_file_inv dom py_str m0 x data Hx) as (k & meta & new & Hk & _ & Hn & _).
      constructor; [eauto|]. apply (IH x). eauto.
    + intros H. apply Forall_cons in H as [[[k Hk] [new Hn]] H].
      destruct (group_meta_of_key dom py_str data k Hk) as (lang & second & Hm).
      rewrite (merge_file_step dom py_str m0 data k _ new Hk Hm Hn). simpl.
      by apply IH.
Qed.

(** The collector returns exactly when every file read has a group key (a
    mapping [meta] with [lang] and the second language code) and entries
    that all normalise; one file without them makes the whole run raise. *)
Theorem run_succeeds_iff (dom : domain) (py_str : json -> string) (parsed : list json) :
  (exists m, collect dom py_str parsed = Ok m) <->
  Forall (fun data =>
            (exists k, group_key dom py_str data = Ok k) /\
            (exists new, normalised_entries dom data = Ok new)) parsed.
Proof.
  rewrite collect_generic. generalize (@nil (string * group)) as m0.
  induction parsed as [|data parsed IH]; intros m0; simpl.
  - split; [constructor | eauto].
  - split.
    + intros [m H]. bind_inv H.
      destruct (merge_file_inv dom py_str m0 x data Hx) as (k & meta & new & Hk & _ & Hn & _).
      constructor; [eauto|]. apply (IH x). eauto.
    + intros H. apply Forall_cons in H as [[[k Hk] [new Hn]] H].
      destruct (group_meta_of_key dom py_str data k Hk) as (lang & second & Hm).
      rewrite (merge_file_step dom py_str m0 data k _ new Hk Hm Hn). simpl.
      by apply IH.
Qed.

(** * The parsers that feed the collectors *)

(** ** phrasebooks/wikivoyage/parser.py *)

Section WikivoyageFacts.
Variable html_text : json -> result string.
Variable lower : string -> string.
Variable strip : string -> string.

Let process_entry := Wikivoyage.process_entry html_text lower strip.

Lemma process_entry_Some (entry r : json) :
  process_entry entry = Ok (Some r) ->
  exists fields phrase translation category,
    entry = JObj fields /\
    html_text (get_or fields "phrase" (JStr "")) = Ok phrase /\ phrase <> "" /\
    html_text (get_or fields "translation" (JStr "")) = Ok translation /\
    Wikivoyage.py_lower lower (get_or fields "category" (JStr "")) = Ok category /\
    r = JObj (List.filter (fun kv => py_truthy kv.2)
          [ ("phrase", JStr phrase);
            ("categories", JArr (if String.eqb category "" then [] else [JStr category]));
            ("source_link", get_or fields "source" (JStr ""));
            ("translations",
             JArr (if String.eqb translation "" then []
                   else [JObj [("content", JStr (strip translation))]])) ]).
Proof.
  subst process_entry. unfold Wikivoyage.process_entry.
  destruct entry as [| | | | | |fields]; try discriminate.
  unfold Wikivoyage.process_entry_try. fold (get_or fields "phrase" (JStr "")).
  fold (get_or fields "translation" (JStr "")). fold (get_or fields "category" (JStr "")).
  fold (get_or fields "source" (JStr "")).
  destruct (html_text (get_or fields "phrase" _)) as [phrase|e] eqn:Hphrase; simpl;
    [|discriminate].
  destruct (String.eqb_spec phrase "") as [->|Hp]; [discriminate|].
  destruct (html_text (get_or fields "translation" _)) as [translation|e] eqn:Htrans;
    simpl; [|discriminate].
  destruct (Wikivoyage.py_lower lower _) as [category|e] eqn:Hcat; simpl; [|discriminate].
  intros [= <-]. exists fields, phrase, translation, category.
  repeat split; try done.
  simpl. by destruct (String.eqb_spec phrase "").
Qed.

(** Every record [process_entry] returns has a non-empty [phrase], only
    keys among [phrase], [categories], [source_link], [translations], in
    that order, and no value that is false: its own filter drops [False] and
    [0] too, unlike the collectors' [filter_empty_fields]. *)
Theorem wikivoyage_entry_shape (entry r : json) :
  process_entry entry = Ok (Some r) ->
  exists out phrase,
    r = JObj out /\
    od_get "phrase" out = Some (JStr phrase) /\ phrase <> "" /\
    keys out `sublist_of` ["phrase"; "categories"; "source_link"; "translations"] /\
    forall k v, (k, v) ∈ out -> py_truthy v = true.
Proof.
  intros (fields & phrase & translation & category & -> & Hp & Hne & Ht & Hc & ->)
    %process_entry_Some.
  eexists _, phrase. split; [reflexivity|].
  split; [|split; [done|split]].
  - simpl. by destruct (String.eqb_spec phrase "").
  - set (data := [_; _; _; _]).
    change ["phrase"; "categories"; "source_link"; "translations"] with (keys data).
    generalize data. clear. intros data. unfold keys.
    induction data as [|[k v] data IH]; simpl; [constructor|].
    destruct (py_truthy v); by constructor.
  - intros k v Hin. by apply list_elem_of_In, filter_In in Hin as [_ Hv].
Qed.

Lemma processed_untranslated (fields : odict) (r meta : json) :
  process_entry (JObj fields) = Ok (Some r) ->
  html_text (get_or fields "translation" (JStr "")) = Ok "" ->
  Phrasebooks.ensure_ordered_entry r meta = Err TypeError.
Proof.
  intros (fields' & phrase & translation & category & [= <-] & Hp & Hne & Ht & Hc & ->)
    %process_entry_Some Hempty.
  rewrite Ht in Hempty. injection Hempty as ->.
  rewrite phrasebook_entry_obj.
  set (entry := List.filter _ _).
  assert (Hget : get_or entry "translations" JNull = JNull).
  { subst entry. unfold get_or. simpl.
    destruct (String.eqb phrase ""); simpl;
      destruct (String.eqb category ""); simpl;
      destruct (py_truthy _); reflexivity. }
  by rewrite Hget.
Qed.

Lemma processed_translated (fields mfields : odict) (r : json)
    (translation : string) :
  process_entry (JObj fields) = Ok (Some r) ->
  html_text (get_or fields "translation" (JStr "")) = Ok translation ->
  translation <> "" ->
  exists out phrase,
    Phrasebooks.ensure_ordered_entry r (JObj mfields) = Ok (JObj out) /\
    od_get "phrase" out = Some (JStr phrase) /\
    od_get "source_link" out = None /\
    od_get "translations" out =
      Some (JArr [JObj (kept
        [ ("content", JStr (strip translation));
          ("examples", JNull);
          ("source_title", get_or mfields "source_title" JNull);
          ("source_link", get_or mfields "source_link" JNull) ])]).
Proof.
  intros (fields' & phrase & translation' & category & [= <-] & Hp & Hne & Ht & Hc & ->)
    %process_entry_Some Ht' Hnonempty.
  rewrite Ht in Ht'. injection Ht' as ->.
  set (entry := List.filter _ _).
  assert (Hphrase : get_or entry "phrase" JNull = JStr phrase).
  { subst entry. unfold get_or. simpl. by destruct (String.eqb_spec phrase ""). }
  assert (Htrans : get_or entry "translations" JNull
                   = JArr [JObj [("content", JStr (strip translation))]]).
  { subst entry. unfold get_or. simpl.
    destruct (String.eqb_spec translation "") as [?|_]; [done|].
    destruct (String.eqb phrase ""); simpl;
      destruct (String.eqb category ""); simpl;
      destruct (py_truthy _); reflexivity. }
  assert (Hmap : forall (f : json -> result json) x, mapM f [x] = (y ← f x; Ok [y])).
  { intros f x. simpl. by destruct (f x). }
  rewrite phrasebook_entry_obj, Htrans. unfold py_iter.
  change (Ok ?l ≫= ?f) with (f l). cbv beta.
  rewrite Hmap, ensure_ordered_translation_obj. simpl.
  eexists _, phrase. split; [reflexivity|].
  rewrite !kept_lookup by distinct_keys. simpl. rewrite Hphrase.
  split; [|split; [done|done]].
  simpl. destruct phrase; [done|reflexivity].
Qed.
(** A scraped entry with a phrase but an empty translation text is
    exported without a [translations] key, and the phrasebook collector
    raises [TypeError] on it, whatever the batch meta. *)
Theorem wikivoyage_untranslated_breaks_collector (fields : odict) (r meta : json) :
  process_entry (JObj fields) = Ok (Some r) ->
  html_text (get_or fields "translation" (JStr "")) = Ok "" ->
  Phrasebooks.ensure_ordered_entry r meta = Err TypeError.
Proof.
  intros (fields' & phrase & translation & category & [= <-] & Hp & Hne & Ht & Hc & ->)
    %process_entry_Some Hempty.
  rewrite Ht in Hempty. injection Hempty as ->.
  rewrite phrasebook_entry_obj.
  set (entry := List.filter _ _).
  assert (Hget : get_or entry "translations" JNull = JNull).
  { subst entry. unfold get_or. simpl.
    destruct (String.eqb phrase ""); simpl;
      destruct (String.eqb category ""); simpl;
      destruct (py_truthy _); reflexivity. }
  by rewrite Hget.
Qed.

(** A scraped entry with a phrase and a translation goes through the
    collector as one entry with one translation.  The [source] scraped with
    the entry, which the parser stores as the entry's [source_link], is not
    carried over: the emitted entry has no [source_link], and its
    translation takes [source_title] and [source_link] from the batch
    meta. *)
Theorem wikivoyage_entry_through_collector (fields mfields : odict) (r : json)
    (translation : string) :
  process_entry (JObj fields) = Ok (Some r) ->
  html_text (get_or fields "translation" (JStr "")) = Ok translation ->
  translation <> "" ->
  exists out phrase,
    Phrasebooks.ensure_ordered_entry r (JObj mfields) = Ok (JObj out) /\
    od_get "phrase" out = Some (JStr phrase) /\
    od_get "source_link" out = None /\
    od_get "translations" out =
      Some (JArr [JObj (kept
        [ ("content", JStr (strip translation));
          ("examples", JNull);
          ("source_title", get_or mfields "source_title" JNull);
          ("source_link", get_or mfields "source_link" JNull) ])]).
Proof.
  intros (fields' & phrase & translation' & category & [= <-] & Hp & Hne & Ht & Hc & ->)
    %process_entry_Some Ht' Hnonempty.
  rewrite Ht in Ht'. injection Ht' as ->.
  set (entry := List.filter _ _).
  assert (Hphrase : get_or entry "phrase" JNull = JStr phrase).
  { subst entry. unfold get_or. simpl. by destruct (String.eqb_spec phrase ""). }
  assert (Htrans : get_or entry "translations" JNull
                   = JArr [JObj [("content", JStr (strip translation))]]).
  { subst entry. unfold get_or. simpl.
    destruct (String.eqb_spec translation "") as [?|_]; [done|].
    destruct (String.eqb phrase ""); simpl;
      destruct (String.eqb category ""); simpl;
      destruct (py_truthy _); reflexivity. }
  assert (Hmap : forall (f : json -> result json) x, mapM f [x] = (y ← f x; Ok [y])).
  { intros f x. simpl. by destruct (f x). }
  rewrite phrasebook_entry_obj, Htrans. unfold py_iter.
  change (Ok ?l ≫= ?f) with (f l). cbv beta.
  rewrite Hmap, ensure_ordered_translation_obj. simpl.
  eexists _, phrase. split; [reflexivity|].
  rewrite !kept_lookup by distinct_keys. simpl. rewrite Hphrase.
  split; [|split; [done|done]].
  simpl. destruct phrase; [done|reflexivity].
Qed.

Lemma processed_translations_key (fields : odict) (r : json) (translation : string) :
  process_entry (JObj fields) = Ok (Some r) ->
  html_text (get_or fields "translation" (JStr "")) = Ok translation ->
  exists out, r = JObj out /\
    od_get "translations" out =
      if String.eqb translation "" then None
      else Some (JArr [JObj [("content", JStr (strip translation))]]).
Proof.
  intros (fields' & phrase & translation' & category & [= <-] & Hp & Hne & Ht & Hc & ->)
    %process_entry_Some Ht'.
  rewrite Ht in Ht'. injection Ht' as ->.
  eexists. split; [reflexivity|]. simpl.
  destruct (String.eqb translation ""); simpl;
    destruct (String.eqb phrase ""); simpl;
    destruct (String.eqb category ""); simpl;
    destruct (py_truthy _); reflexivity.
Qed.

Lemma processed_truthy (entry r : json) :
  process_entry entry = Ok (Some r) -> py_truthy r = true.
Proof.
  intros (fields & phrase & translation & category & -> & Hp & Hne & Ht & Hc & ->)
    %process_entry_Some.
  simpl. by destruct (String.eqb_spec phrase "").
Qed.

Let appended := appended_entry html_text lower strip.

Lemma parse_loop_Ok (items parsed_data parsed : list json) :
  Wikivoyage.parse_loop html_text lower strip items parsed_data = Ok parsed ->
  parsed = parsed_data ++ flat_map appended items.
Proof.
  revert parsed_data. induction items as [|entry items IH]; intros acc H; simpl in H.
  - injection H as <-. simpl. by rewrite app_nil_r.
  - bind_inv H. apply IH in H. rewrite H. simpl.
    subst appended. unfold appended_entry at 2. rewrite Hx. destruct x as [r|].
    + rewrite (processed_truthy entry r Hx). by rewrite <- app_assoc.
    + done.
Qed.

Lemma parsed_entries_processed (raw : json) (parsed : list json) (flag : bool) :
  Wikivoyage.parse html_text lower strip raw [] = Ok (parsed, flag) ->
  Forall (fun r => exists entry, process_entry entry = Ok (Some r)) parsed.
Proof.
  unfold Wikivoyage.parse. destruct (py_truthy raw); [|intros [= <- _]; constructor].
  intros H. do 2 bind_inv H. injection H as <- _.
  apply parse_loop_Ok in Hx0. subst x0. simpl.
  apply Forall_forall. intros r Hr. apply list_elem_of_In, in_flat_map in Hr.
  destruct Hr as (entry & _ & Hr). exists entry.
  subst appended process_entry. unfold appended_entry in Hr.
  destruct (Wikivoyage.process_entry html_text lower strip entry) as [[r'|]|];
    simpl in Hr; try done.
  by destruct Hr as [->|[]].
Qed.

Lemma mapM_is_Ok {A B} (f : A -> result B) (l : list A) :
  (exists k, mapM f l = Ok k) <-> Forall (fun x => exists y, f x = Ok y) l.
Proof.
  induction l as [|x l IH]; simpl.
  - split; [constructor | eauto].
  - split.
    + intros [k H]. do 2 bind_inv H. constructor; [eauto|]. apply IH. eauto.
    + intros H. apply Forall_cons in H as [[y Hy] H]. apply IH in H as [k Hk].
      rewrite Hy. simpl. rewrite Hk. simpl. eauto.
Qed.

(** From scraped entries to the aggregate.  When the parser has exported a
    document, the phrasebook collector completes on it exactly when every
    exported entry has a [translations] key, that is when no scraped entry
    with a phrase had an empty translation text; one such entry makes the
    run over the document raise. *)
Theorem wikivoyage_pipeline (py_str : json -> string) (raw meta doc : json)
    (parsed : list json) (flag : bool) :
  Wikivoyage.parse html_text lower strip raw [] = Ok (parsed, flag) ->
  Wikivoyage.export_document parsed meta = Ok (Some doc) ->
  (exists m, collect Phrasebook py_str [doc] = Ok m) <->
  Forall (fun r => exists out ts, r = JObj out /\ od_get "translations" out = Some ts) parsed.
Proof.
  intros Hparse Hexport.
  pose proof (parsed_entries_processed raw parsed flag Hparse) as Hproc.
  unfold Wikivoyage.export_document in Hexport.
  destruct parsed as [|r0 parsed0] eqn:Hparsed; [discriminate|]. rewrite <- Hparsed in *.
  destruct meta as [| | | | | |mfields]; try discriminate. simpl in Hexport.
  injection Hexport as <-.
  rewrite collect_succeeds_iff, Forall_singleton.
  unfold group_key, normalised_entries. simpl.
  split.
  - intros [_ [new Hnew]]. apply Forall_forall. intros r Hr.
    assert (Hok : exists y, Phrasebooks.ensure_ordered_entry r (JObj
              [("lang", get_or mfields "lang" (JStr ""));
               ("translation_lang", get_or mfields "translation_lang" (JStr ""));
               ("source_title", get_or mfields "source_title" (JStr ""));
               ("source_link", get_or mfields "source_link" (JStr ""))]) = Ok y).
    { assert (Hall := proj1 (mapM_is_Ok _ _) (ex_intro _ new Hnew)).
      exact (proj1 (Forall_forall _ _) Hall r Hr). }
    destruct Hok as [y Hy].
    destruct (proj1 (Forall_forall _ _) Hproc r Hr) as [entry Hentry].
    destruct (process_entry_Some entry r Hentry)
      as (fields & phrase & translation & category & -> & _ & _ & Ht & _ & _).
    destruct (processed_translations_key fields r translation Hentry Ht) as (out & -> & Hts).
    destruct (String.eqb_spec translation "") as [->|_].
    + by rewrite (processed_untranslated fields _ _ Hentry Ht) in Hy.
    + eauto.
  - intros Hall. split; [eauto|]. apply mapM_is_Ok.
    apply Forall_forall. intros r Hr.
    destruct (proj1 (Forall_forall _ _) Hall r Hr) as (out & ts & -> & Hts).
    destruct (proj1 (Forall_forall _ _) Hproc _ Hr) as [entry Hentry].
    destruct (process_entry_Some entry _ Hentry)
      as (fields & phrase & translation & category & -> & _ & _ & Ht & _ & _).
    destruct (processed_translations_key fields _ translation Hentry Ht)
      as (out' & [= <-] & Hts').
    destruct (String.eqb_spec translation "") as [->|Hne]; [congruence|].
    destruct (processed_translated fields
                [("lang", get_or mfields "lang" (JStr ""));
                 ("translation_lang", get_or mfields "translation_lang" (JStr ""));
                 ("source_title", get_or mfields "source_title" (JStr ""));
                 ("source_link", get_or mfields "source_link" (JStr ""))]
                _ translation Hentry Ht Hne)
      as (out'' & ? & Hok & _).
    eexists. exact Hok.
Qed.
End WikivoyageFacts.

Lemma wikivoyage_entry_shape_witness :
  exists out phrase,
    ParserSamples.parsed_thanks = JObj out /\
    od_get "phrase" out = Some (JStr phrase) /\ phrase <> "" /\
    keys out `sublist_of` ["phrase"; "categories"; "source_link"; "translations"] /\
    forall k v, (k, v) ∈ out -> py_truthy v = true.
Proof.
  apply (wikivoyage_entry_shape ParserSamples.plain_text ParserSamples.unchanged
           ParserSamples.unchanged (JObj ParserSamples.scraped_thanks)).
  reflexivity.
Defined.

Lemma wikivoyage_untranslated_breaks_collector_witness :
  Phrasebooks.ensure_ordered_entry ParserSamples.parsed_untranslated
    (JObj ParserSamples.scraped_meta) = Err TypeError.
Proof.
  apply (wikivoyage_untranslated_breaks_collector ParserSamples.plain_text
           ParserSamples.unchanged ParserSamples.unchanged
           ParserSamples.scraped_untranslated).
  - reflexivity.
  - reflexivity.
Defined.

Lemma wikivoyage_entry_through_collector_witness :
  exists out phrase,
    Phrasebooks.ensure_ordered_entry ParserSamples.parsed_thanks
      (JObj ParserSamples.scraped_meta) = Ok (JObj out) /\
    od_get "phrase" out = Some (JStr phrase) /\
    od_get "source_link" out = None /\
    od_get "translations" out =
      Some (JArr [JObj (kept
        [ ("content", JStr (ParserSamples.unchanged "thank you"));
          ("examples", JNull);
          ("source_title", get_or ParserSamples.scraped_meta "source_title" JNull);
          ("source_link", get_or ParserSamples.scraped_meta "source_link" JNull) ])]).
Proof.
  apply (wikivoyage_entry_through_collector ParserSamples.plain_text
           ParserSamples.unchanged ParserSamples.unchanged
           ParserSamples.scraped_thanks ParserSamples.scraped_meta
           ParserSamples.parsed_thanks "thank you").
  - reflexivity.
  - reflexivity.
  - discriminate.
Defined.

Lemma wikivoyage_pipeline_witness :
  (exists m, collect Phrasebook Samples.text_of
     [JObj [("meta", JObj [("lang", JStr "tgl"); ("translation_lang", JStr "eng");
                           ("source_title", JStr "Tagalog Wikivoyage Phrasebook");
                           ("source_link", JStr "")]);
            ("entries",
             JArr [ParserSamples.parsed_thanks; ParserSamples.parsed_untranslated])]]
     = Ok m) <->
  Forall (fun r => exists out ts, r = JObj out /\ od_get "translations" out = Some ts)
    [ParserSamples.parsed_thanks; ParserSamples.parsed_untranslated].
Proof.
  apply (wikivoyage_pipeline ParserSamples.plain_text ParserSamples.unchanged
           ParserSamples.unchanged Samples.text_of
           (JArr [JObj ParserSamples.scraped_thanks;
                  JObj ParserSamples.scraped_untranslated])
           (JObj ParserSamples.scraped_meta) _ _ true).
  - reflexivity.
  - reflexivity.
Defined.

(** ** dictionaries/pinoy_dictionary/parser.py *)

(** A document exported by the Pinoy Dictionary parser is always accepted
    by the dictionary collector as far as its meta goes: it has a group key,
    and its meta has a [source_title] ([""] when the scraped meta had none),
    so no definition that is a mapping raises on it. *)
Theorem pinoy_export_feeds_collector (py_str : json -> string)
    (parsed_data : list json) (meta doc : json) :
  PinoyDictionary.export_document parsed_data meta = Ok (Some doc) ->
  exists m k,
    py_getitem doc "meta" = Ok m /\
    py_getitem doc "entries" = Ok (JArr parsed_data) /\
    group_key Dictionary py_str doc = Ok k /\
    forall fields, exists out,
      Dictionaries.ensure_ordered_definition (JObj fields) m = Ok (JObj out).
Proof.
  unfold PinoyDictionary.export_document.
  destruct parsed_data as [|r0 parsed0]; [discriminate|].
  destruct meta as [| | | | | |mfields]; try discriminate. simpl.
  intros [= <-]. eexists _, _. split; [reflexivity|]. split; [reflexivity|].
  split; [reflexivity|].
  intros fields. rewrite ensure_ordered_definition_obj. simpl. eauto.
Qed.

Lemma pinoy_export_feeds_collector_witness :
  exists m k,
    py_getitem (JObj [("meta", JObj [("lang", JStr "tgl"); ("definition_lang", JStr "eng");
                                     ("source_title", JStr ""); ("source_link", JStr "")]);
                      ("entries", JArr [Samples.entry_pusa])]) "meta" = Ok m /\
    py_getitem (JObj [("meta", JObj [("lang", JStr "tgl"); ("definition_lang", JStr "eng");
                                     ("source_title", JStr ""); ("source_link", JStr "")]);
                      ("entries", JArr [Samples.entry_pusa])]) "entries"
      = Ok (JArr [Samples.entry_pusa]) /\
    group_key Dictionary Samples.text_of
      (JObj [("meta", JObj [("lang", JStr "tgl"); ("definition_lang", JStr "eng");
                            ("source_title", JStr ""); ("source_link", JStr "")]);
             ("entries", JArr [Samples.entry_pusa])]) = Ok k /\
    forall fields, exists out,
      Dictionaries.ensure_ordered_definition (JObj fields) m = Ok (JObj out).
Proof.
  apply (pinoy_export_feeds_collector Samples.text_of [Samples.entry_pusa]
           Samples.meta_bare).
  reflexivity.
Defined.

(** ** dictionaries/gcide/parser.py *)

Lemma extend_last_words (more : list json) (data : list Gcide.entry) :
  Gcide.word <$> Gcide.extend_last more data = Gcide.word <$> data.
Proof.
  induction data as [|e data IH]; [done|].
  destruct data as [|e' data]; [done|].
  change (Gcide.extend_last more (e :: e' :: data))
    with (e :: Gcide.extend_last more (e' :: data)).
  rewrite (fmap_cons Gcide.word e (e' :: data)).
  rewrite (fmap_cons Gcide.word e (Gcide.extend_last more (e' :: data))).
  by rewrite IH.
Qed.

Lemma extend_last_definitions (more : list json) (data : list Gcide.entry) :
  data <> [] ->
  all_definitions (Gcide.extend_last more data) = all_definitions data ++ more.
Proof.
  unfold all_definitions. induction data as [|e data IH]; [done|]. intros _.
  destruct data as [|e' data].
  - simpl. by rewrite !app_nil_r.
  - change (Gcide.extend_last more (e :: e' :: data))
      with (e :: Gcide.extend_last more (e' :: data)).
    rewrite (fmap_cons Gcide.definitions e (e' :: data)).
    rewrite (fmap_cons Gcide.definitions e (Gcide.extend_last more (e' :: data))).
    change (concat (?a :: ?l)) with (a ++ concat l).
    rewrite IH by done. by rewrite app_assoc.
Qed.

Lemma extend_last_nonempty (more : list json) (data : list Gcide.entry) :
  data <> [] -> Gcide.extend_last more data <> [].
Proof. destruct data as [|e [|e' data]]; done. Qed.

Lemma has_word_word (e e' : Gcide.entry) :
  Gcide.word e = Gcide.word e' -> Gcide.has_word e = Gcide.has_word e'.
Proof. unfold Gcide.has_word. by intros ->. Qed.

Lemma absorb_words (data : list Gcide.entry) (processed : list (option Gcide.entry)) :
  Gcide.word <$> foldl Gcide.absorb data processed =
    (Gcide.word <$> data) ++
    (Gcide.word <$> List.filter Gcide.has_word (processed_entries processed)).
Proof.
  revert data. induction processed as [|[e|] processed IH]; intros data; simpl.
  - by rewrite app_nil_r.
  - rewrite IH. unfold processed_entries. simpl.
    destruct (Gcide.has_word e) eqn:He; simpl.
    + rewrite fmap_app. simpl. by rewrite <- app_assoc.
    + destruct data as [|d data]; [done|]. by rewrite extend_last_words.
  - apply IH.
Qed.

Lemma absorb_definitions (data : list Gcide.entry) (processed : list (option Gcide.entry)) :
  data <> [] ->
  all_definitions (foldl Gcide.absorb data processed) =
    all_definitions data ++ all_definitions (processed_entries processed).
Proof.
  revert data. induction processed as [|[e|] processed IH]; intros data Hne; simpl.
  - by rewrite app_nil_r.
  - unfold processed_entries. simpl. fold (processed_entries processed).
    destruct (Gcide.has_word e) eqn:He.
    + rewrite IH by (by destruct data).
      unfold all_definitions. rewrite fmap_app, concat_app. simpl.
      by rewrite app_nil_r, <- app_assoc.
    + destruct data as [|d data]; [done|].
      rewrite IH by (by apply extend_last_nonempty).
      rewrite extend_last_definitions by done.
      unfold all_definitions at 4. simpl. by rewrite <- app_assoc.
  - by apply IH.
Qed.

(** [process_letter] keeps exactly the paragraphs that have a headword, in
    the order of the file: every entry it returns has a non-empty word, and
    the words returned are the non-empty headwords in order. *)
Theorem gcide_letter_words (processed : list (option Gcide.entry)) :
  Forall (fun e => exists w, Gcide.word e = Some w /\ w <> "")
    (Gcide.process_letter processed) /\
  Gcide.word <$> Gcide.process_letter processed =
    Gcide.word <$> List.filter Gcide.has_word (processed_entries processed).
Proof.
  assert (Hwords := absorb_words [] processed). simpl in Hwords.
  split; [|exact Hwords].
  fold (Gcide.process_letter processed) in Hwords.
  apply Forall_forall. intros e He.
  assert (Hin : Gcide.word e ∈ Gcide.word <$> Gcide.process_letter processed)
    by (by apply list_elem_of_fmap_2).
  rewrite Hwords in Hin. apply list_elem_of_fmap in Hin as (e' & Hw & He').
  apply list_elem_of_In, filter_In in He' as [_ He'].
  rewrite <- (has_word_word e e' Hw) in He'. unfold Gcide.has_word in He'.
  destruct (Gcide.word e) as [w|]; [|done]. exists w. split; [done|].
  intros ->. done.
Qed.

(** The definitions of a paragraph without headword are appended to the
    entry before it, and dropped when no entry precedes: the definitions
    [process_letter] returns are, in order, those of all processed
    paragraphs from the first one with a headword on. *)
Theorem gcide_letter_definitions (processed : list (option Gcide.entry)) :
  all_definitions (Gcide.process_letter processed) =
    all_definitions (skip_orphans (processed_entries processed)).
Proof.
  unfold Gcide.process_letter.
  induction processed as [|[e|] processed IH]; simpl; [done| |exact IH].
  unfold processed_entries. simpl. fold (processed_entries processed).
  destruct (Gcide.has_word e) eqn:He; [|exact IH].
  rewrite absorb_definitions by done.
  unfold all_definitions. simpl. by rewrite app_nil_r.
Qed.

Section GcideSort.
Variable lower : string -> string.

Let key_le (a b : string * Gcide.entry) : Prop := String.leb a.1 b.1 = true.

Lemma insert_keyed_Permutation (x : string * Gcide.entry) l :
  Gcide.insert_keyed x l ≡ₚ x :: l.
Proof.
  induction l as [|y l IH]; simpl; [done|].
  destruct (String.leb x.1 y.1); [done|]. rewrite IH. apply Permutation_swap.
Qed.

Lemma insert_keyed_Sorted (x : string * Gcide.entry) l :
  Sorted key_le l -> Sorted key_le (Gcide.insert_keyed x l).
Proof.
  induction 1 as [|y l Hl IH Hhd]; simpl.
  - by repeat constructor.
  - destruct (String.leb x.1 y.1) eqn:Hxy.
    + constructor; [by constructor|]. by constructor.
    + constructor; [done|].
      assert (Hyx : key_le y x).
      { destruct (String.leb_total x.1 y.1) as [H|H]; [congruence|done]. }
      destruct l as [|z l]; simpl in *; [by constructor|].
      destruct (String.leb x.1 z.1); constructor; [done|].
      by inv Hhd.
Qed.

Lemma insert_keyed_filter (x : string * Gcide.entry) l (k : string) :
  List.filter (fun p => String.eqb p.1 k) (Gcide.insert_keyed x l) =
  List.filter (fun p => String.eqb p.1 k) (x :: l).
Proof.
  induction l as [|y l IH]; [done|]. simpl Gcide.insert_keyed.
  destruct (String.leb x.1 y.1) eqn:Hxy; [done|].
  simpl in *. rewrite IH.
  destruct (String.eqb_spec y.1 k) as [Hy|_]; [|done].
  destruct (String.eqb_spec x.1 k) as [Hx|_]; [|done].
  rewrite Hx, <- Hy in Hxy.
  destruct (String.leb_total y.1 y.1) as [H|H]; congruence.
Qed.

Lemma sort_keyed_spec (keyed : list (string * Gcide.entry)) :
  foldr Gcide.insert_keyed [] keyed ≡ₚ keyed /\
  Sorted key_le (foldr Gcide.insert_keyed [] keyed) /\
  forall k, List.filter (fun p => String.eqb p.1 k) (foldr Gcide.insert_keyed [] keyed)
            = List.filter (fun p => String.eqb p.1 k) keyed.
Proof.
  induction keyed as [|x keyed (IHp & IHs & IHf)]; simpl.
  - by repeat split; try constructor.
  - split; [|split].
    + by rewrite insert_keyed_Permutation, IHp.
    + by apply insert_keyed_Sorted.
    + intros k. rewrite insert_keyed_filter. simpl. by rewrite IHf.
Qed.

Lemma sort_by_word_keyed (parsed_data sorted : list Gcide.entry) :
  Gcide.sort_by_word lower parsed_data = Ok sorted ->
  sorted = (foldr Gcide.insert_keyed []
              ((fun e => (word_key lower e, e)) <$> parsed_data)).*2 /\
  Forall (fun e => exists w, Gcide.word e = Some w) parsed_data.
Proof.
  unfold Gcide.sort_by_word. intros H. bind_inv H. injection H as <-.
  apply mapM_Ok in Hx.
  assert (Hkeyed : x = (fun e => (word_key lower e, e)) <$> parsed_data /\
                   Forall (fun e => exists w, Gcide.word e = Some w) parsed_data).
  { induction Hx as [|e p l k Hep _ IH]; [by split|].
    destruct IH as [-> IH]. unfold Gcide.sort_key, word_key in *.
    destruct (Gcide.word e) as [w|] eqn:Hw; simpl in Hep; [|done].
    injection Hep as <-. split; [by rewrite fmap_cons, Hw|].
    constructor; eauto. }
  by destruct Hkeyed as [-> ?].
Qed.

Lemma sort_by_word_Permutation (parsed_data sorted : list Gcide.entry) :
  Gcide.sort_by_word lower parsed_data = Ok sorted -> sorted ≡ₚ parsed_data.
Proof.
  intros [-> _]%sort_by_word_keyed.
  destruct (sort_keyed_spec ((fun e => (word_key lower e, e)) <$> parsed_data))
    as (Hp & _ & _).
  rewrite Hp, <- list_fmap_compose. by rewrite list_fmap_id.
Qed.

(** The sort before the export: the entries written are those given, each
    once, in non-decreasing order of the lower-cased word, and entries with
    the same lower-cased word keep the order they had. *)
Theorem gcide_sort_by_word (parsed_data sorted : list Gcide.entry) :
  Gcide.sort_by_word lower parsed_data = Ok sorted ->
  sorted ≡ₚ parsed_data /\
  Sorted (fun a b => String.leb (word_key lower a) (word_key lower b) = true) sorted /\
  forall k, List.filter (fun e => String.eqb (word_key lower e) k) sorted
            = List.filter (fun e => String.eqb (word_key lower e) k) parsed_data.
Proof.
  intros [-> _]%sort_by_word_keyed.
  set (keyed := (fun e => (word_key lower e, e)) <$> parsed_data).
  destruct (sort_keyed_spec keyed) as (Hp & Hs & Hf).
  assert (Hsnd : keyed.*2 = parsed_data).
  { subst keyed. rewrite <- list_fmap_compose. apply list_fmap_id. }
  assert (Hkeys : Forall (fun p => p.1 = word_key lower p.2)
                    (foldr Gcide.insert_keyed [] keyed)).
  { rewrite Hp. subst keyed. apply Forall_fmap, Forall_forall. by intros. }
  split; [|split].
  - by rewrite Hp, Hsnd.
  - revert Hs Hkeys. generalize (foldr Gcide.insert_keyed [] keyed). clear.
    induction 1 as [|p l Hl IH Hhd]; intros Hkeys; [constructor|].
    apply Forall_cons in Hkeys as [Hp Hkeys]. rewrite fmap_cons.
    constructor; [by apply IH|].
    destruct l as [|q l]; [constructor|]. rewrite fmap_cons. constructor.
    apply Forall_cons in Hkeys as [Hq _]. inv Hhd.
    unfold key_le in *. by rewrite <- Hp, <- Hq.
  - intros k.
    transitivity (List.filter (fun e => String.eqb (word_key lower e) k) keyed.*2);
      [|by rewrite Hsnd].
    assert (Hfilter : forall l : list (string * Gcide.entry),
              Forall (fun p => p.1 = word_key lower p.2) l ->
              List.filter (fun e => String.eqb (word_key lower e) k) l.*2
              = (List.filter (fun p => String.eqb p.1 k) l).*2).
    { induction 1 as [|p l Hpk _ IH]; [done|]. rewrite fmap_cons. simpl.
      rewrite <- Hpk. destruct (String.eqb p.1 k); [rewrite fmap_cons|]; by rewrite IH. }
    assert (Hkeyed : Forall (fun p => p.1 = word_key lower p.2) keyed)
      by (subst keyed; apply Forall_fmap, Forall_forall; by intros).
    by rewrite (Hfilter _ Hkeys), (Hfilter _ Hkeyed), Hf.
Qed.
End GcideSort.

Lemma sort_by_word_total (lower : string -> string) (parsed_data : list Gcide.entry) :
  Forall (fun e => exists w, Gcide.word e = Some w) parsed_data ->
  exists sorted, Gcide.sort_by_word lower parsed_data = Ok sorted.
Proof.
  intros Hall. unfold Gcide.sort_by_word.
  destruct (proj2 (mapM_is_Ok (fun e => k ← Gcide.sort_key lower e; Ok (k, e)) parsed_data))
    as [keyed Hkeyed].
  - eapply Forall_impl; [exact Hall|]. intros e [w Hw]. unfold Gcide.sort_key.
    rewrite Hw. simpl. eauto.
  - rewrite Hkeyed. simpl. eauto.
Qed.

(** What [parse] collects from the letter files can always be exported:
    every entry [process_letter] returns has a word, so the sort key
    [entry["word"].lower()] never meets [None]. *)
Theorem gcide_letters_export (lower : string -> string)
    (letters : list (list (option Gcide.entry))) :
  exists r, Gcide.export_document lower (concat (Gcide.process_letter <$> letters)) = Ok r.
Proof.
  assert (Hall : Forall (fun e => exists w, Gcide.word e = Some w)
                   (concat (Gcide.process_letter <$> letters))).
  { induction letters as [|processed letters IH]; [constructor|].
    rewrite fmap_cons. simpl. apply Forall_app. split; [|exact IH].
    assert (Hw : Gcide.word <$> Gcide.process_letter processed =
                 Gcide.word <$> List.filter Gcide.has_word (processed_entries processed))
      by apply (absorb_words [] processed).
    apply Forall_forall. intros e He.
    assert (Hin : Gcide.word e ∈ Gcide.word <$> Gcide.process_letter processed)
      by (by apply list_elem_of_fmap_2).
    rewrite Hw in Hin. apply list_elem_of_fmap in Hin as (e' & Hww & He').
    apply list_elem_of_In, filter_In in He' as [_ He'].
    unfold Gcide.has_word in He'. rewrite Hww.
    destruct (Gcide.word e') as [w|]; [eauto|done]. }
  unfold Gcide.export_document.
  destruct (concat _) as [|e0 l0] eqn:Hl; [eauto|]. rewrite <- Hl in *.
  destruct (sort_by_word_total lower _ Hall) as [sorted ->]. simpl. eauto.
Qed.

(** A document exported by the GCIDE parser goes through the dictionary
    collector whenever the definitions of its entries are mappings: the run
    over it completes, and the group, keyed by the two language codes [eng],
    holds one normalised entry per exported entry. *)
Theorem gcide_document_collects (py_str : json -> string) (lower : string -> string)
    (parsed_data : list Gcide.entry) (doc : json) :
  Gcide.export_document lower parsed_data = Ok (Some doc) ->
  Forall (fun e => Forall (fun d => exists fs, d = JObj fs) (Gcide.definitions e))
    parsed_data ->
  exists m g,
    collect Dictionary py_str [doc] = Ok m /\
    md_get (Dictionaries.filename_of py_str (JStr "eng") (JStr "eng")) m = Some g /\
    g_meta g = [("lang", JStr "eng"); ("definition_lang", JStr "eng")] /\
    length (g_entries g) = length parsed_data.
Proof.
  unfold Gcide.export_document. intros H Hmaps.
  destruct parsed_data as [|e0 l0] eqn:Hl; [discriminate|]. rewrite <- Hl in *. clear Hl.
  bind_inv H. injection H as <-.
  pose proof (sort_by_word_Permutation lower parsed_data x Hx) as Hperm.
  rewrite <- Hperm in Hmaps. rewrite <- (Permutation_length Hperm).
  set (meta := JObj [("lang", JStr "eng"); ("definition_lang", JStr "eng");
                     ("total_entries", JInt (Z.of_nat (length x)));
                     ("source_title", JStr "GCIDE");
                     ("source_link", JStr "https://ibiblio.org/webster/")]).
  assert (Hdef : forall d, (exists fs, d = JObj fs) ->
            exists r, Dictionaries.ensure_ordered_definition d meta = Ok r).
  { intros d [fs ->]. rewrite ensure_ordered_definition_obj. simpl. eauto. }
  assert (Hentry : forall e, Forall (fun d => exists fs, d = JObj fs) (Gcide.definitions e) ->
            exists r, Dictionaries.ensure_ordered_entry (Gcide.entry_json e) meta = Ok r).
  { intros e He. unfold Gcide.entry_json. rewrite dictionary_entry_obj.
    change (get_or _ "definitions" (JArr [])) with (JArr (Gcide.definitions e)).
    unfold py_iter. change (Ok ?l ≫= ?f) with (f l). cbv beta.
    destruct (proj2 (mapM_is_Ok (fun d => Dictionaries.ensure_ordered_definition d meta)
                       (Gcide.definitions e))) as [ds ->].
    - eapply Forall_impl; [exact He|]. exact Hdef.
    - simpl. eauto. }
  destruct (proj2 (mapM_is_Ok (fun e => Dictionaries.ensure_ordered_entry e meta)
                     (Gcide.entry_json <$> x))) as [new Hnew].
  { apply Forall_fmap. eapply Forall_impl; [exact Hmaps|]. exact Hentry. }
  rewrite collect_generic. simpl foldlM.
  rewrite (merge_file_step Dictionary py_str [] _
             (Dictionaries.filename_of py_str (JStr "eng") (JStr "eng"))
             [("lang", JStr "eng"); ("definition_lang", JStr "eng")] new);
    [| reflexivity | reflexivity |].
  - change (Ok ?l ≫= ?f) with (f l). cbv beta. simpl foldlM.
    eexists _, _. split; [reflexivity|].
    rewrite merge_step_lookup, String.eqb_refl.
    split; [reflexivity|]. split; [reflexivity|].
    simpl. rewrite (mapM_length _ _ _ Hnew). by rewrite length_fmap.
  - unfold normalised_entries. simpl. exact Hnew.
Qed.

(** The name chosen for the export is one that does not exist. *)

Lemma string_length_append (s1 s2 : string) :
  String.length (s1 +:+ s2) = String.length s1 + String.length s2.
Proof.
  induction s1 as [|c s1 IH]; [done|].
  change (String.length (String c (s1 +:+ s2)) = S (String.length s1) + String.length s2).
  simpl. by rewrite IH.
Qed.

Lemma string_append_inj_r (e s1 s2 : string) : s1 +:+ e = s2 +:+ e -> s1 = s2.
Proof.
  revert s2. induction s1 as [|c s1 IH]; intros [|c' s2] H; simpl in *.
  - done.
  - apply (f_equal String.length) in H.
    change (String c' s2 +:+ e) with (String c' (s2 +:+ e)) in H.
    rewrite (string_length_append "" e) in H. simpl in H.
    rewrite (string_length_append s2 e) in H. lia.
  - apply (f_equal String.length) in H.
    change (String c s1 +:+ e) with (String c (s1 +:+ e)) in H.
    rewrite (string_length_append "" e) in H. simpl in H.
    rewrite (string_length_append s1 e) in H. lia.
  - change (String c (s1 +:+ e) = String c' (s2 +:+ e)) in H.
    injection H as -> H. by rewrite (IH s2 H).
Qed.

Lemma string_append_inj_l (b s1 s2 : string) : b +:+ s1 = b +:+ s2 -> s1 = s2.
Proof.
  induction b as [|c b IH]; [done|].
  change (String c (b +:+ s1) = String c (b +:+ s2) -> s1 = s2). intros [= H]. auto.
Qed.

Lemma numbered_inj (base ext : string) (c c' : nat) :
  Gcide.numbered base ext c = Gcide.numbered base ext c' -> c = c'.
Proof.
  unfold Gcide.numbered. intros H%string_append_inj_l%string_append_inj_l.
  apply string_append_inj_r in H. by apply (inj pretty).
Qed.

Lemma numbered_ne_first (base : string) (c : nat) :
  base +:+ ".json" <> Gcide.numbered base ".json" c.
Proof. unfold Gcide.numbered. intros H%string_append_inj_l. discriminate H. Qed.

Lemma free_name_None (dir : gset string) (base ext : string) (fuel c : nat) (p : string) :
  Gcide.free_name dir base ext fuel c p = None ->
  p ∈ dir /\ forall i, i < fuel -> Gcide.numbered base ext (c + i) ∈ dir.
Proof.
  revert c p. induction fuel as [|fuel IH]; intros c p; simpl.
  - case_bool_decide; [|done]. intros _. split; [done|]. lia.
  - case_bool_decide; [|done]. intros [Hp Hall]%IH. split; [done|].
    intros [|i] Hi.
    + by rewrite Nat.add_0_r.
    + replace (c + S i) with (S c + i) by lia. apply Hall. lia.
Qed.

Lemma free_name_Some (dir : gset string) (base ext : string) (fuel c : nat)
    (p name : string) :
  Gcide.free_name dir base ext fuel c p = Some name ->
  (name ∉ dir) /\
  (name = p \/
   (p ∈ dir /\ exists k, c <= k /\ name = Gcide.numbered base ext k /\
      forall j, c <= j < k -> Gcide.numbered base ext j ∈ dir)).
Proof.
  revert c p. induction fuel as [|fuel IH]; intros c p; simpl.
  - case_bool_decide; [done|]. intros [= <-]. auto.
  - case_bool_decide as Hp; [|intros [= <-]; auto].
    intros (Hfree & [->|(Hc & k & Hk & -> & Hall)])%IH; (split; [done|right; split; [done|]]).
    + exists c. split; [done|]. split; [done|]. lia.
    + exists k. split; [lia|]. split; [done|]. intros j Hj.
      destruct (decide (j = c)) as [->|Hne]; [done|]. apply Hall. lia.
Qed.

(** [export_parsed_data] never overwrites: whatever the output directory
    holds, the loop ends within as many turns as the directory has names,
    and the name it ends on does not exist there.  The name is
    [dictionary_eng_eng_<n>.json] when that is free, otherwise the first free
    one of [..._2.json], [..._3.json], and so on. *)
Theorem gcide_output_name_is_free (dir : gset string) (total : nat) :
  exists name,
    Gcide.output_name dir total (size dir) = Some name /\
    (name ∉ dir) /\
    (name = "dictionary_eng_eng_" +:+ pretty total +:+ ".json" \/
     ("dictionary_eng_eng_" +:+ pretty total +:+ ".json" ∈ dir /\
      exists k, 2 <= k /\
        name = Gcide.numbered ("dictionary_eng_eng_" +:+ pretty total) ".json" k /\
        forall j, 2 <= j < k ->
          Gcide.numbered ("dictionary_eng_eng_" +:+ pretty total) ".json" j ∈ dir)).
Proof.
  unfold Gcide.output_name.
  set (base := "dictionary_eng_eng_" +:+ pretty total).
  assert (Hfirst : "dictionary_eng_eng_" +:+ pretty total +:+ ".json" = base +:+ ".json").
  { subst base. simpl. do 19 f_equal. }
  rewrite Hfirst.
  destruct (Gcide.free_name dir base ".json" (size dir) 2 (base +:+ ".json"))
    as [name|] eqn:Hname.
  - exists name. split; [done|]. by apply free_name_Some in Hname.
  - exfalso. apply free_name_None in Hname as [Hp Hall].
    set (names := (base +:+ ".json")
                  :: ((fun i => Gcide.numbered base ".json" (2 + i)) <$> seq 0 (size dir))).
    assert (Hnd : NoDup names).
    { subst names. apply NoDup_cons. split.
      - intros (i & Hi & _)%list_elem_of_fmap. by apply numbered_ne_first in Hi.
      - apply NoDup_fmap_2; [|apply NoDup_seq].
        intros i j Hij%numbered_inj. lia. }
    assert (Hsub : (list_to_set names : gset string) ⊆ dir).
    { intros x Hx%elem_of_list_to_set. subst names.
      apply elem_of_cons in Hx as [->|(i & -> & Hi%elem_of_seq)%list_elem_of_fmap];
        [done|]. apply Hall. lia. }
    apply subseteq_size in Hsub. rewrite size_list_to_set in Hsub by done.
    subst names. simpl in Hsub. rewrite length_fmap, length_seq in Hsub. lia.
Qed.

Lemma gcide_sort_by_word_witness :
  [Gcide.Entry (Some "Aso") []; Gcide.Entry (Some "aso") []; Gcide.Entry (Some "pusa") []]
    ≡ₚ [Gcide.Entry (Some "pusa") []; Gcide.Entry (Some "Aso") [];
        Gcide.Entry (Some "aso") []] /\
  Sorted (fun a b => String.leb (word_key ParserSamples.lower_ascii a)
                                (word_key ParserSamples.lower_ascii b) = true)
    [Gcide.Entry (Some "Aso") []; Gcide.Entry (Some "aso") []; Gcide.Entry (Some "pusa") []]
  /\
  forall k,
    List.filter (fun e => String.eqb (word_key ParserSamples.lower_ascii e) k)
      [Gcide.Entry (Some "Aso") []; Gcide.Entry (Some "aso") [];
       Gcide.Entry (Some "pusa") []]
    = List.filter (fun e => String.eqb (word_key ParserSamples.lower_ascii e) k)
        [Gcide.Entry (Some "pusa") []; Gcide.Entry (Some "Aso") [];
         Gcide.Entry (Some "aso") []].
Proof.
  apply (gcide_sort_by_word ParserSamples.lower_ascii
           [Gcide.Entry (Some "pusa") []; Gcide.Entry (Some "Aso") [];
            Gcide.Entry (Some "aso") []]).
  reflexivity.
Defined.

Lemma gcide_document_collects_witness :
  exists m g,
    collect Dictionary Samples.text_of
      [JObj [ ("meta", JObj [ ("lang", JStr "eng"); ("definition_lang", JStr "eng");
                              ("total_entries", JInt 2);
                              ("source_title", JStr "GCIDE");
                              ("source_link", JStr "https://ibiblio.org/webster/") ]);
              ("entries",
               JArr [ JObj [("word", JStr "Cat");
                            ("definitions", JArr [JObj [("description", JStr "feline")]])];
                      JObj [("word", JStr "dog"); ("definitions", JArr [])] ]) ]]
      = Ok m /\
    md_get (Dictionaries.filename_of Samples.text_of (JStr "eng") (JStr "eng")) m = Some g /\
    g_meta g = [("lang", JStr "eng"); ("definition_lang", JStr "eng")] /\
    length (g_entries g) =
      length [Gcide.Entry (Some "dog") [];
              Gcide.Entry (Some "Cat") [JObj [("description", JStr "feline")]]].
Proof.
  apply (gcide_document_collects Samples.text_of ParserSamples.lower_ascii
           [Gcide.Entry (Some "dog") [];
            Gcide.Entry (Some "Cat") [JObj [("description", JStr "feline")]]]).
  - reflexivity.
  - repeat constructor. eexists. reflexivity.
Defined.

(** ** utils/fetch_page.py *)

Lemma fetch_loop_fails (network : nat -> Fetch.outcome) (n a : nat) (slept : list Z) :
  (forall j, a <= j < a + n -> network j = Fetch.RequestException) ->
  Fetch.fetch_loop network n a slept =
    (None, slept ++ ((fun i => 2 * (Z.of_nat i + 2))%Z <$> seq a n)).
Proof.
  revert a slept. induction n as [|n IH]; intros a slept Hfail; simpl.
  - by rewrite app_nil_r.
  - rewrite Hfail by lia. rewrite IH by (intros j Hj; apply Hfail; lia).
    rewrite <- app_assoc. simpl. do 3 f_equal. lia.
Qed.

Lemma fetch_loop_succeeds (network : nat -> Fetch.outcome) (n a k : nat)
    (slept : list Z) (content : string) :
  k < n ->
  network (a + k) = Fetch.Content content ->
  (forall j, a <= j < a + k -> network j = Fetch.RequestException) ->
  Fetch.fetch_loop network n a slept =
    (Some content, slept ++ ((fun i => 2 * (Z.of_nat i + 2))%Z <$> seq a k)).
Proof.
  revert n a slept. induction k as [|k IH]; intros n a slept Hn Hk Hfail.
  - destruct n as [|n]; [lia|]. simpl. rewrite Nat.add_0_r in Hk. rewrite Hk.
    by rewrite app_nil_r.
  - destruct n as [|n]; [lia|]. simpl. rewrite Hfail by lia.
    rewrite (IH n (S a)); [|lia| |].
    + rewrite <- app_assoc. simpl. do 3 f_equal. lia.
    + by replace (S a + k) with (a + S k) by lia.
    + intros j Hj. apply Hfail. lia.
Qed.

Lemma total_seconds_sleeps (k : nat) :
  total_seconds (sleeps k) = (Z.of_nat k * (Z.of_nat k + 3))%Z.
Proof.
  unfold sleeps, total_seconds. induction k as [|k IH]; [done|].
  rewrite seq_S, fmap_app, foldr_app. simpl.
  assert (Hshift : forall (l : list Z) (z : Z),
            foldr Z.add z l = (foldr Z.add 0 l + z)%Z).
  { induction l as [|x l IHl]; intros z; simpl; [lia|]. rewrite IHl. lia. }
  rewrite Hshift, IH. lia.
Qed.

(** [fetch_page] returns the content of the first request that succeeds,
    provided it is among the first [retries + 1]; before it, each failed
    attempt is followed by a sleep, of 4, 6, 8, ... seconds. *)
Theorem fetch_page_first_success (network : nat -> Fetch.outcome) (retries : Z)
    (k : nat) (content : string) :
  (Z.of_nat k <= retries)%Z ->
  network k = Fetch.Content content ->
  (forall j, j < k -> network j = Fetch.RequestException) ->
  Fetch.fetch_page network retries = inr (Some content, sleeps k).
Proof.
  intros Hk Hc Hfail. unfold Fetch.fetch_page.
  destruct (Z.ltb_spec retries 0) as [?|_]; [lia|].
  rewrite (fetch_loop_succeeds network _ 0 k [] content); [done|lia|done|].
  intros j Hj. apply Hfail. lia.
Qed.

Lemma fetch_page_first_success_witness :
  Fetch.fetch_page
    (fun i => if Nat.ltb i 2 then Fetch.RequestException else Fetch.Content "page") 3
  = inr (Some "page", [4; 6]%Z).
Proof.
  apply (fetch_page_first_success
           (fun i => if Nat.ltb i 2 then Fetch.RequestException else Fetch.Content "page")
           3 2 "page").
  - lia.
  - reflexivity.
  - intros j Hj. destruct j as [|[|j]]; [reflexivity|reflexivity|lia].
Defined.

(** When the first [retries + 1] requests all fail, [fetch_page] returns
    [None]; it has then slept after every attempt, the last one included,
    for [(retries + 1) * (retries + 4)] seconds in all. *)
Theorem fetch_page_gives_up (network : nat -> Fetch.outcome) (retries : Z) :
  (0 <= retries)%Z ->
  (forall j, (Z.of_nat j <= retries)%Z -> network j = Fetch.RequestException) ->
  Fetch.fetch_page network retries = inr (None, sleeps (Z.to_nat retries + 1)) /\
  total_seconds (sleeps (Z.to_nat retries + 1)) = ((retries + 1) * (retries + 4))%Z.
Proof.
  intros Hr Hfail. unfold Fetch.fetch_page.
  destruct (Z.ltb_spec retries 0) as [?|_]; [lia|]. split.
  - replace (Z.to_nat (retries + 1)) with (Z.to_nat retries + 1) by lia.
    by rewrite fetch_loop_fails by (intros j Hj; apply Hfail; lia).
  - rewrite total_seconds_sleeps. lia.
Qed.

Lemma fetch_page_gives_up_witness :
  Fetch.fetch_page (fun _ => Fetch.RequestException) 1
    = inr (None, sleeps (Z.to_nat 1 + 1)) /\
  total_seconds (sleeps (Z.to_nat 1 + 1)) = ((1 + 1) * (1 + 4))%Z.
Proof.
  apply (fetch_page_gives_up (fun _ => Fetch.RequestException) 1).
  - lia.
  - reflexivity.
Defined.

(** ** freqlists/parser.py *)

Lemma split_underscore_head (s : string) :
  exists pieces, Freqlists.split_underscore s = before_underscore s :: pieces.
Proof.
  induction s as [|c s [pieces IH]]; simpl; [eauto|].
  destruct (Ascii.eqb c _); [eauto|]. rewrite IH. eauto.
Qed.

Lemma split_underscore_none (s : string) :
  has_underscore s = false -> Freqlists.split_underscore s = [s].
Proof.
  induction s as [|c s IH]; simpl; [done|].
  destruct (Ascii.eqb c _); simpl; [done|]. intros H. by rewrite IH.
Qed.

Lemma split_underscore_prefix (prefix rest : string) :
  has_underscore prefix = false ->
  Freqlists.split_underscore (prefix +:+ "_" +:+ rest)
    = prefix :: Freqlists.split_underscore rest.
Proof.
  induction prefix as [|c prefix IH]; [done|]. simpl has_underscore.
  change (String c prefix +:+ "_" +:+ rest) with (String c (prefix +:+ "_" +:+ rest)).
  simpl. destruct (Ascii.eqb c _); simpl; [done|]. intros H. by rewrite IH.
Qed.

Lemma before_underscore_none (s : string) :
  has_underscore s = false -> before_underscore s = s.
Proof.
  induction s as [|c s IH]; simpl; [done|].
  destruct (Ascii.eqb c _); simpl; [done|]. intros H. by rewrite IH.
Qed.

(** Which language a word list is counted under.  The file
    [<prefix>_<lang>.txt] (as [wordlist_<lang>.txt], which the word-list
    export writes) is taken for the language [lang] when [lang] has no
    underscore; when it has one, for the part of [lang] before it.  A stem
    without underscore is skipped. *)
Theorem freqlist_lang_of_stem (prefix lang : string) :
  has_underscore prefix = false ->
  Freqlists.lang_of_stem (prefix +:+ "_" +:+ lang) = Some (before_underscore lang) /\
  (has_underscore lang = false ->
     Freqlists.lang_of_stem (prefix +:+ "_" +:+ lang) = Some lang) /\
  Freqlists.lang_of_stem prefix = None.
Proof.
  intros Hp. unfold Freqlists.lang_of_stem.
  rewrite (split_underscore_prefix prefix lang Hp).
  destruct (split_underscore_head lang) as [pieces Hhead]. rewrite Hhead.
  split; [done|]. split.
  - intros Hl. simpl. by rewrite before_underscore_none.
  - by rewrite (split_underscore_none prefix Hp).
Qed.

Lemma freqlist_lang_of_stem_witness :
  Freqlists.lang_of_stem ("wordlist" +:+ "_" +:+ "zh_min") = Some (before_underscore "zh_min")
  /\ (has_underscore "zh_min" = false ->
      Freqlists.lang_of_stem ("wordlist" +:+ "_" +:+ "zh_min") = Some "zh_min")
  /\ Freqlists.lang_of_stem "wordlist" = None.
Proof.
  apply (freqlist_lang_of_stem "wordlist" "zh_min"). reflexivity.
Defined.

Lemma tb_get_set_eq (w : string) (n : Z) (t : Freqlists.table) :
  Freqlists.tb_get w (Freqlists.tb_set w n t) = Some n.
Proof.
  induction t as [|[w' m] t IH]; simpl.
  - by rewrite String.eqb_refl.
  - destruct (String.eqb_spec w' w) as [->|Hne]; simpl.
    + by rewrite String.eqb_refl.
    + by destruct (String.eqb_spec w' w).
Qed.

Lemma tb_get_set_ne (w w' : string) (n : Z) (t : Freqlists.table) :
  w <> w' -> Freqlists.tb_get w' (Freqlists.tb_set w n t) = Freqlists.tb_get w' t.
Proof.
  intros Hne. induction t as [|[w0 m] t IH]; simpl.
  - by destruct (String.eqb_spec w w').
  - destruct (String.eqb_spec w0 w) as [->|Hne0]; simpl.
    + by destruct (String.eqb_spec w w').
    + by rewrite IH.
Qed.

Lemma tb_set_keys_old (w : string) (n m : Z) (t : Freqlists.table) :
  Freqlists.tb_get w t = Some m -> (Freqlists.tb_set w n t).*1 = t.*1.
Proof.
  induction t as [|[w' k] t IH]; simpl; [done|].
  destruct (String.eqb_spec w' w) as [->|Hne]; simpl; [done|].
  intros H. f_equal. by apply IH.
Qed.

Lemma corpus_frequency_cons lower py_int (w : string) (row : list string) rows :
  corpus_frequency lower py_int w (row :: rows) =
    (corpus_frequency lower py_int w [row] + corpus_frequency lower py_int w rows)%Z.
Proof.
  unfold corpus_frequency. rewrite !fmap_cons.
  change (foldr Z.add 0%Z (?x :: ?l)) with (x + foldr Z.add 0%Z l)%Z.
  change (foldr Z.add 0%Z (?f <$> [])) with 0%Z. lia.
Qed.

Section FreqlistFacts.
Variable strip : string -> string.
Variable lower : string -> string.
Variable py_int : string -> option Z.

Lemma count_lines_get (t : Freqlists.table) (lines : list string) (w : string) :
  w <> "" ->
  Freqlists.tb_get w (Freqlists.count_lines strip lower t lines) =
    match occurrences strip lower w lines with
    | 0 => Freqlists.tb_get w t
    | S n => Some (match Freqlists.tb_get w t with Some k => k | None => 0 end
                   + Z.of_nat (S n))%Z
    end.
Proof.
  intros Hw. unfold Freqlists.count_lines, occurrences.
  revert t. induction lines as [|line lines IH]; intros t; simpl; [done|].
  rewrite IH. unfold Freqlists.count_line.
  destruct (String.eqb_spec (lower (strip line)) w) as [->|Hne]; simpl.
  - destruct (String.eqb_spec w "") as [?|_]; [done|].
    rewrite tb_get_set_eq.
    destruct (length _) as [|n]; f_equal; lia.
  - destruct (String.eqb_spec (lower (strip line)) "") as [_|_]; [done|].
    by rewrite tb_get_set_ne.
Qed.

Lemma count_lines_no_empty (t : Freqlists.table) (lines : list string) :
  Freqlists.tb_get "" (Freqlists.count_lines strip lower t lines) = Freqlists.tb_get "" t.
Proof.
  unfold Freqlists.count_lines.
  revert t. induction lines as [|line lines IH]; intros t; simpl; [done|].
  rewrite IH. unfold Freqlists.count_line.
  destruct (String.eqb_spec (lower (strip line)) "") as [_|Hne]; [done|].
  by rewrite tb_get_set_ne.
Qed.

(** Counting the lines of a word list into an empty table gives each word
    the number of lines that are this word once stripped and lower-cased;
    words that occur on no line, and the empty word, are not in the
    table. *)
Theorem freqlist_counts_lines (lines : list string) (w : string) :
  Freqlists.tb_get w (Freqlists.count_lines strip lower [] lines) =
    if String.eqb w "" then None
    else match occurrences strip lower w lines with
         | 0 => None
         | S n => Some (Z.of_nat (S n))
         end.
Proof.
  destruct (String.eqb_spec w "") as [->|Hw].
  - by rewrite count_lines_no_empty.
  - rewrite count_lines_get by done. simpl. by destruct (occurrences _ _ _ _).
Qed.

Lemma apply_row_keys (t : Freqlists.table) (row : list string) :
  (Freqlists.apply_row lower py_int t row).*1 = t.*1.
Proof.
  unfold Freqlists.apply_row. destruct (Nat.ltb _ _); [done|].
  destruct (py_int _) as [freq|]; [|done].
  destruct (Freqlists.tb_get _ t) as [n|] eqn:Hn; [|done].
  by eapply tb_set_keys_old.
Qed.

Lemma apply_row_get (t : Freqlists.table) (row : list string) (w : string) (n : Z) :
  Freqlists.tb_get w t = Some n ->
  Freqlists.tb_get w (Freqlists.apply_row lower py_int t row) =
    Some (n + corpus_frequency lower py_int w [row])%Z.
Proof.
  intros Hn. unfold Freqlists.apply_row, corpus_frequency. simpl.
  destruct (Nat.ltb _ _); [rewrite Hn; f_equal; lia|].
  destruct (String.eqb_spec (lower (match row !! 1 with Some x => x | None => "" end)) w)
    as [->|Hne].
  - destruct (py_int _) as [freq|]; [|rewrite Hn; f_equal; lia].
    rewrite Hn, tb_get_set_eq. f_equal. lia.
  - destruct (py_int _) as [freq|]; [|rewrite Hn; f_equal; lia].
    destruct (Freqlists.tb_get (lower _) t) as [k|] eqn:Hk;
      [|rewrite Hn; f_equal; lia].
    rewrite tb_get_set_ne by done. rewrite Hn. f_equal. lia.
Qed.

Lemma apply_rows_spec (t : Freqlists.table) (rows : list (list string)) :
  (Freqlists.apply_rows lower py_int t rows).*1 = t.*1 /\
  forall w n, Freqlists.tb_get w t = Some n ->
    Freqlists.tb_get w (Freqlists.apply_rows lower py_int t rows) =
      Some (n + corpus_frequency lower py_int w rows)%Z.
Proof.
  unfold Freqlists.apply_rows.
  revert t. induction rows as [|row rows IH]; intros t; simpl.
  - split; [done|]. intros w n Hn. rewrite Hn. unfold corpus_frequency. simpl.
    f_equal. lia.
  - destruct (IH (Freqlists.apply_row lower py_int t row)) as [Hkeys Hget].
    split; [by rewrite Hkeys, apply_row_keys|].
    intros w n Hn. rewrite (Hget w _ (apply_row_get t row w n Hn)).
    rewrite (corpus_frequency_cons lower py_int w row rows). f_equal. lia.
Qed.

(** Applying the corpus frequencies never adds or removes a word and keeps
    the order of the table: each word of the table gains the sum of the
    frequencies of its rows, and rows for other words, rows of fewer than two
    fields and rows whose last field is no number change nothing. *)
Theorem freqlist_apply_keeps_words (t : Freqlists.table) (rows : list (list string))
    (w : string) (n : Z) :
  Freqlists.tb_get w t = Some n ->
  (Freqlists.apply_rows lower py_int t rows).*1 = t.*1 /\
  Freqlists.tb_get w (Freqlists.apply_rows lower py_int t rows) =
    Some (n + corpus_frequency lower py_int w rows)%Z.
Proof.
  intros Hn. destruct (apply_rows_spec t rows) as [Hkeys Hget]. split; [done|]. auto.
Qed.
End FreqlistFacts.

Lemma insert_desc_Permutation (x : string * Z) (l : Freqlists.table) :
  Freqlists.insert_desc x l ≡ₚ x :: l.
Proof.
  induction l as [|y l IH]; simpl; [done|].
  destruct (y.2 <=? x.2)%Z; [done|]. rewrite IH. apply Permutation_swap.
Qed.

Lemma insert_desc_Sorted (x : string * Z) (l : Freqlists.table) :
  Sorted (fun a b => (b.2 <= a.2)%Z) l ->
  Sorted (fun a b => (b.2 <= a.2)%Z) (Freqlists.insert_desc x l).
Proof.
  induction 1 as [|y l Hl IH Hhd]; simpl.
  - by repeat constructor.
  - destruct (Z.leb_spec y.2 x.2) as [Hyx|Hxy].
    + constructor; [by constructor|]. by constructor.
    + constructor; [done|].
      destruct l as [|z l]; simpl in *; [constructor; lia|].
      destruct (z.2 <=? x.2)%Z; constructor; [lia|]. by inv Hhd.
Qed.

Lemma insert_desc_filter (x : string * Z) (l : Freqlists.table) (n : Z) :
  List.filter (fun p => (p.2 =? n)%Z) (Freqlists.insert_desc x l) =
  List.filter (fun p => (p.2 =? n)%Z) (x :: l).
Proof.
  induction l as [|y l IH]; [done|]. simpl Freqlists.insert_desc.
  destruct (Z.leb_spec y.2 x.2) as [Hyx|Hxy]; [done|].
  simpl in *. rewrite IH.
  destruct (Z.eqb_spec y.2 n) as [Hy|_]; [|done].
  destruct (Z.eqb_spec x.2 n) as [Hx|_]; [lia|done].
Qed.

(** The rows written for a language are the items of its table, each once,
    by non-increasing count; words with the same count stay in the order in
    which they entered the table. *)
Theorem freqlist_export_rows (t : Freqlists.table) :
  Freqlists.export_rows t ≡ₚ t /\
  Sorted (fun a b => (b.2 <= a.2)%Z) (Freqlists.export_rows t) /\
  forall n, List.filter (fun p => (p.2 =? n)%Z) (Freqlists.export_rows t)
            = List.filter (fun p => (p.2 =? n)%Z) t.
Proof.
  unfold Freqlists.export_rows.
  induction t as [|x t (IHp & IHs & IHf)]; simpl.
  - by repeat split; try constructor.
  - split; [|split].
    + by rewrite insert_desc_Permutation, IHp.
    + by apply insert_desc_Sorted.
    + intros n. rewrite insert_desc_filter. simpl. by rewrite IHf.
Qed.

Lemma freqlist_apply_keeps_words_witness :
  (Freqlists.apply_rows ParserSamples.lower_ascii ParserSamples.digits_int
     [("aso", 1%Z); ("pusa", 2%Z)]
     [["1"; "Aso"; "40"]; ["2"; "ibon"; "7"]; ["3"; "aso"; "many"]; ["4"]]).*1
    = [("aso", 1%Z); ("pusa", 2%Z)].*1 /\
  Freqlists.tb_get "aso"
    (Freqlists.apply_rows ParserSamples.lower_ascii ParserSamples.digits_int
       [("aso", 1%Z); ("pusa", 2%Z)]
       [["1"; "Aso"; "40"]; ["2"; "ibon"; "7"]; ["3"; "aso"; "many"]; ["4"]])
    = Some (1 + corpus_frequency ParserSamples.lower_ascii ParserSamples.digits_int "aso"
                  [["1"; "Aso"; "40"]; ["2"; "ibon"; "7"]; ["3"; "aso"; "many"]; ["4"]])%Z.
Proof.
  apply (freqlist_apply_keeps_words ParserSamples.lower_ascii ParserSamples.digits_int
           [("aso", 1%Z); ("pusa", 2%Z)]
           [["1"; "Aso"; "40"]; ["2"; "ibon"; "7"]; ["3"; "aso"; "many"]; ["4"]]
           "aso" 1%Z).
  reflexivity.
Defined.
